(** * dofn-schedj: the poll service of [server.js]

    A shallow embedding of the Express handlers of [server.js] and of the
    start-up initializer [ensurePollExists], with the properties checked
    against them.

    Modelling choices, all of them visible in the definitions below:

    - The Redis key [POLL_KEY] holds the JSON text of one poll document.
      [JSON.parse] and [JSON.stringify] are inverse on the documents the
      service writes, so the store keeps the parsed document
      ([PollDocument]) and [None] for an absent key.
    - Values that arrive in a request body are JavaScript values
      ([JSValue]): [undefined] for a missing field, [null], booleans,
      integer Numbers, strings and arrays of strings.  The handlers store
      [userName] and [newDate] unchecked, so those two fields hold a
      [JSValue] in the document too.
    - Numbers are the integer-valued ones.  A vote counter is a binary64:
      [votes++] gives the binary64 nearest to the sum ([binary64]), which is
      the sum itself up to 2^53.
    - [Array.prototype.sort] fixes its result when the comparator is
      consistent, as it is when every count is a Number.  When a count is a
      string the comparator answers NaN and the order is the runtime's own:
      the functions below take it as [implementationOrder].
    - [String.prototype.toLowerCase] belongs to the runtime; the handlers
      are written over any function [toLowerCase : string -> string].
      [asciiToLowerCase] is the instance used in the examples.
    - A store command may reject.  The world carries the list [faults] of
      the outcomes of the coming store commands ([true]: the command
      rejects), and the list [trace] of the commands and broadcasts issued
      so far. *)

From stdpp Require Import base list strings pretty numbers sorting.

Open Scope Z_scope.

(** ** JavaScript values *)

(** Primitive values other than strings. *)
Inductive Prim :=
  | PUndefined
  | PNull
  | PBool (b : bool)
  | PNum (n : Z).

Inductive JSValue :=
  | VPrim (p : Prim)
  | VStr (s : string)
  | VArr (l : list string).

(** A Number: [None] is NaN. *)
Definition Number := option Z.

(** ToBoolean. *)
Definition truthy (v : JSValue) : bool :=
  match v with
  | VPrim PUndefined => false
  | VPrim PNull => false
  | VPrim (PBool b) => b
  | VPrim (PNum n) => negb (n =? 0)
  | VStr s => negb (String.eqb s "")
  | VArr _ => true
  end.

(** [Array.isArray]. *)
Definition isArray (v : JSValue) : bool :=
  match v with
  | VArr _ => true
  | _ => false
  end.

(** ToNumber on the primitives other than strings. *)
Definition ToNumber (p : Prim) : Number :=
  match p with
  | PUndefined => None
  | PNull => Some 0
  | PBool b => Some (if b then 1 else 0)
  | PNum n => Some n
  end.

(** [x < y] and [x >= y] on Numbers: false as soon as one side is NaN. *)
Definition js_lt (x y : Number) : bool :=
  match x, y with
  | Some a, Some b => a <? b
  | _, _ => false
  end.

Definition js_ge (x y : Number) : bool :=
  match x, y with
  | Some a, Some b => b <=? a
  | _, _ => false
  end.

(** The array slot a property key names, for a key that is a primitive other
    than a string: a Number that is not negative names a slot; [undefined],
    [null], [true] and [false] name properties an array does not have. *)
Definition slot (k : Prim) : option nat :=
  match k with
  | PNum n => if n <? 0 then None else Some (Z.to_nat n)
  | _ => None
  end.

(** [arr[k]]: the element, or [undefined] ([None]). *)
Definition element {A : Type} (arr : list A) (k : Prim) : option A :=
  match slot k with
  | Some i => arr !! i
  | None => None
  end.

(** ** The poll document *)

Record UserVote := mkUserVote {
  vote_id : string;
  userName : JSValue;
  dates : list string
}.

Record LegacyOption := mkLegacyOption {
  label : JSValue;
  votes : Z
}.

(** [userVotes] is absent ([None]) in documents of the older shape. *)
Record PollDocument := mkPollDocument {
  poll_id : string;
  title : string;
  userVotes : option (list UserVote);
  options : list LegacyOption
}.

Definition set_dates (ds : list string) (v : UserVote) : UserVote :=
  {| vote_id := vote_id v; userName := userName v; dates := ds |}.

(** The integer-valued binary64 nearest to the integer [z], ties to the even
    significand: an integer of at most 53 bits is itself, a longer one is
    rounded to 53 significant bits. *)
Definition binary64 (z : Z) : Z :=
  let a := Z.abs z in
  let e := Z.log2 a in
  if e <=? 52 then z
  else
    let u := 2 ^ (e - 52) in
    let q := a / u in
    let r := a mod u in
    let q' :=
      if 2 * r <? u then q
      else if u <? 2 * r then q + 1
      else if Z.even q then q else q + 1 in
    Z.sgn z * (q' * u).

(** [o.votes++]. *)
Definition incr_votes (o : LegacyOption) : LegacyOption :=
  {| label := label o; votes := binary64 (votes o + 1) |}.

Definition set_userVotes (vs : list UserVote) (p : PollDocument) : PollDocument :=
  {| poll_id := poll_id p; title := title p; userVotes := Some vs; options := options p |}.

Definition set_options (os : list LegacyOption) (p : PollDocument) : PollDocument :=
  {| poll_id := poll_id p; title := title p; userVotes := userVotes p; options := os |}.

(** ** The [dateCounts] object of GET /poll *)

(** A value held by [dateCounts]: a Number, or the string that [+ 1] makes
    of a member inherited from [Object.prototype]. *)
Inductive Count :=
  | Num (n : nat)
  | Text.

(** The own properties of [dateCounts], in creation order. *)
Definition DateCounts := list (string * Count).

(** The names [{}] inherits from [Object.prototype]. *)
Definition objectPrototypeKeys : list string :=
  [ "constructor"; "__defineGetter__"; "__defineSetter__"; "hasOwnProperty";
    "__lookupGetter__"; "__lookupSetter__"; "isPrototypeOf";
    "propertyIsEnumerable"; "toString"; "valueOf"; "__proto__";
    "toLocaleString" ]%string.

Definition inherited (k : string) : bool :=
  existsb (String.eqb k) objectPrototypeKeys.

Fixpoint own (k : string) (o : DateCounts) : option Count :=
  match o with
  | [] => None
  | (k', c) :: o' => if String.eqb k k' then Some c else own k o'
  end.

Fixpoint assign (k : string) (c : Count) (o : DateCounts) : DateCounts :=
  match o with
  | [] => [(k, c)]
  | (k', c') :: o' =>
      if String.eqb k k' then (k', c) :: o' else (k', c') :: assign k c o'
  end.

(** [(x || 0) + 1] for an own Number [x]. *)
Definition orZeroPlusOne (n : nat) : nat :=
  ((if (n =? 0)%nat then 0 else n) + 1)%nat.

(** [dateCounts[date] = (dateCounts[date] || 0) + 1].  A name found on the
    prototype reads as a function or an object, which [+ 1] turns into a
    string; the assignment then creates an own property, except for
    [__proto__], whose setter ignores a string. *)
Definition bump (o : DateCounts) (date : string) : DateCounts :=
  match own date o with
  | Some (Num n) => assign date (Num (orZeroPlusOne n)) o
  | Some Text => assign date Text o
  | None =>
      if inherited date then
        if String.eqb date "__proto__" then o else assign date Text o
      else assign date (Num (0 + 1)) o
  end.

(** The two nested [forEach] loops. *)
Definition countDates (votes : list UserVote) : DateCounts :=
  fold_left (fun o vote => fold_left bump (dates vote) o) votes [].

(** *** [Object.entries]: array indices first, ascending, then the other
    names in creation order *)

Definition digit (c : Ascii.ascii) : option N :=
  let n := Ascii.N_of_ascii c in
  if ((48 <=? n) && (n <=? 57))%N then Some (n - 48)%N else None.

Fixpoint digits (s : string) (acc : N) : option N :=
  match s with
  | EmptyString => Some acc
  | String c r =>
      match digit c with
      | Some d => digits r (10 * acc + d)%N
      | None => None
      end
  end.

(** An array index is the canonical decimal of an integer below 2^32 - 1. *)
Definition arrayIndex (k : string) : option N :=
  match k with
  | EmptyString => None
  | _ =>
      match digits k 0 with
      | Some n =>
          if String.eqb (pretty n) k && (n <? 4294967295)%N then Some n else None
      | None => None
      end
  end.

Definition isIndex {A : Type} (e : string * A) : bool :=
  match arrayIndex e.1 with Some _ => true | None => false end.

Definition indexOf {A : Type} (e : string * A) : N :=
  default 0%N (arrayIndex e.1).

Fixpoint insertIndex {A : Type} (e : string * A) (l : list (string * A)) :=
  match l with
  | [] => [e]
  | e' :: l' =>
      if (indexOf e <=? indexOf e')%N then e :: e' :: l' else e' :: insertIndex e l'
  end.

Definition sortIndices {A : Type} (l : list (string * A)) : list (string * A) :=
  foldr insertIndex [] l.

Definition entries {A : Type} (o : list (string * A)) : list (string * A) :=
  sortIndices (List.filter isIndex o) ++ List.filter (fun e => negb (isIndex e)) o.

(** *** The popular dates *)

Record PopularDate := mkPopularDate {
  date : string;
  count : Count
}.

(** [(a, b) => b.count - a.count]; a string operand gives NaN. *)
Definition compareFn (a b : PopularDate) : Number :=
  match count b, count a with
  | Num nb, Num na => Some (Z.of_nat nb - Z.of_nat na)
  | _, _ => None
  end.

(** SortCompare of [Array.prototype.sort]: a NaN from the comparator counts
    as [+0]. *)
Definition SortCompare (a b : PopularDate) : Z :=
  default 0 (compareFn a b).

(** The stable sort by [SortCompare], by insertion from the right. *)
Fixpoint insertSorted (x : PopularDate) (l : list PopularDate) : list PopularDate :=
  match l with
  | [] => [x]
  | y :: l' =>
      if SortCompare x y <=? 0 then x :: y :: l' else y :: insertSorted x l'
  end.

Definition stableSort (l : list PopularDate) : list PopularDate :=
  foldr insertSorted [] l.

Definition isNumber (p : PopularDate) : bool :=
  match count p with
  | Num _ => true
  | Text => false
  end.

(** [Array.prototype.sort] with [compareFn].  When every count is a Number
    the comparator is consistent and the result is the stable sort, whatever
    the runtime.  When a count is a string the comparator answers NaN, it is
    not consistent, and the order is implementation-defined: it is what
    [implementationOrder] makes of the array. *)
Definition sort (implementationOrder : list PopularDate -> list PopularDate)
    (l : list PopularDate) : list PopularDate :=
  if forallb isNumber l then stableSort l else implementationOrder l.

(** [Object.entries(dateCounts).map(..).sort(..).slice(0, 5)]. *)
Definition popularDatesOf (implementationOrder : list PopularDate -> list PopularDate)
    (votes : list UserVote) : list PopularDate :=
  take 5 (sort implementationOrder
            (map (fun e => {| date := e.1; count := e.2 |}) (entries (countDates votes)))).

(** ** The world: store, clock, faults, trace *)

Inductive Exn :=
  | StoreError
  | TypeError.

Inductive Outcome (A : Type) :=
  | Ok (a : A)
  | Thrown (e : Exn).

Arguments Ok {A} a.
Arguments Thrown {A} e.

Inductive Event :=
  | RedisGet
  | RedisSet (doc : PollDocument)
  | Emit (name : string).

Record World := mkWorld {
  store : option PollDocument;
  now : Z;
  faults : list bool;
  trace : list Event
}.

Definition M (A : Type) : Type := World -> Outcome A * World.

Definition ret {A : Type} (a : A) : M A := fun w => (Ok a, w).

Definition throw {A : Type} (e : Exn) : M A := fun w => (Thrown e, w).

Definition bind {A B : Type} (m : M A) (k : A -> M B) : M B :=
  fun w =>
    match m w with
    | (Ok a, w') => k a w'
    | (Thrown e, w') => (Thrown e, w')
    end.

Notation "x <~ m ;; k" := (bind m (fun x => k))
  (at level 100, m at next level, right associativity).
Notation "m ;;; k" := (bind m (fun _ => k))
  (at level 100, right associativity).

(** [try { m } catch (err) { h }]. *)
Definition try_catch {A : Type} (m : M A) (h : Exn -> M A) : M A :=
  fun w =>
    match m w with
    | (Ok a, w') => (Ok a, w')
    | (Thrown e, w') => h e w'
    end.

(** A value that is [undefined] where the code goes on to read a property
    of it. *)
Definition orTypeError {A : Type} (o : option A) : M A :=
  match o with
  | Some a => ret a
  | None => throw TypeError
  end.

(** One store command: it is written to the trace and takes the next
    outcome from [faults]. *)
Definition issue (e : Event) (w : World) : World :=
  {| store := store w; now := now w; faults := tail (faults w);
     trace := trace w ++ [e] |}.

Definition rejects (w : World) : bool :=
  match faults w with
  | true :: _ => true
  | _ => false
  end.

(** [redisClient.get(POLL_KEY)]. *)
Definition redisClient_get : M (option PollDocument) :=
  fun w =>
    if rejects w then (Thrown StoreError, issue RedisGet w)
    else (Ok (store w), issue RedisGet w).

(** [redisClient.set(POLL_KEY, JSON.stringify(doc))]. *)
Definition redisClient_set (doc : PollDocument) : M unit :=
  fun w =>
    if rejects w then (Thrown StoreError, issue (RedisSet doc) w)
    else
      (Ok tt,
       {| store := Some doc; now := now w; faults := tail (faults w);
          trace := trace w ++ [RedisSet doc] |}).

(** [io.emit(name)]. *)
Definition io_emit (name : string) : M unit :=
  fun w =>
    (Ok tt,
     {| store := store w; now := now w; faults := faults w;
        trace := trace w ++ [Emit name] |}).

(** [Date.now()]. *)
Definition Date_now : M Z := fun w => (Ok (now w), w).

(** ** Responses *)

Inductive Body :=
  | ErrorBody (error : string)
  | MessageBody (message : string)
  | PollBody (pollData : PollDocument) (popularDates : option (list PopularDate)).

Record Response := mkResponse {
  status : nat;
  body : Body
}.

(** ** 1) ensurePollExists *)

Definition initialData : PollDocument :=
  {| poll_id := "seat-22222-3333-4444-555555555555";
     title := "Seattle Work Get-Together";
     userVotes := Some [];
     options :=
       [ {| label := VStr "2024-04-05"; votes := 0 |};
         {| label := VStr "2024-04-12"; votes := 0 |};
         {| label := VStr "2024-04-19"; votes := 0 |} ] |}.

Definition ensurePollExists : M unit :=
  poll <~ redisClient_get ;;
  match poll with
  | None => redisClient_set initialData
  | Some pollData =>
      match userVotes pollData with
      | None => redisClient_set (set_userVotes [] pollData)
      | Some _ => ret tt
      end
  end.

(** ** 2) GET /poll *)

(** The derived field: present when [userVotes] is there and not empty. *)
Definition derivedField (implementationOrder : list PopularDate -> list PopularDate)
    (pollData : PollDocument) : option (list PopularDate) :=
  match userVotes pollData with
  | Some votes =>
      if (0 <? length votes)%nat then Some (popularDatesOf implementationOrder votes)
      else None
  | None => None
  end.

Definition getPoll (implementationOrder : list PopularDate -> list PopularDate) :
    M Response :=
  try_catch
    (data <~ redisClient_get ;;
     match data with
     | None => ret {| status := 404; body := ErrorBody "Poll not found in Redis." |}
     | Some pollData =>
         ret {| status := 200;
                body := PollBody pollData (derivedField implementationOrder pollData) |}
     end)
    (fun _ => ret {| status := 500; body := ErrorBody "Server error fetching poll." |}).

(** [findIndex]: [Some None] is -1, [None] an exception thrown by the
    callback. *)
Fixpoint findIndex {A : Type} (p : A -> option bool) (l : list A) : option (option nat) :=
  match l with
  | [] => Some None
  | x :: l' =>
      match p x with
      | None => None
      | Some true => Some (Some 0%nat)
      | Some false =>
          match findIndex p l' with
          | Some (Some i) => Some (Some (S i))
          | r => r
          end
      end
  end.

(** ASCII instance of [toLowerCase]. *)
Definition lowerAscii (c : Ascii.ascii) : Ascii.ascii :=
  let n := Ascii.nat_of_ascii c in
  if ((65 <=? n) && (n <=? 90))%nat then Ascii.ascii_of_nat (n + 32) else c.

Fixpoint asciiToLowerCase (s : string) : string :=
  match s with
  | EmptyString => EmptyString
  | String c r => String (lowerAscii c) (asciiToLowerCase r)
  end.

Section Handlers.

Variable toLowerCase : string -> string.

(** [v.toLowerCase()]: a TypeError ([None]) unless [v] is a string. *)
Definition lowerCase (v : JSValue) : option string :=
  match v with
  | VStr s => Some (toLowerCase s)
  | _ => None
  end.

(** [(vote) => vote.userName.toLowerCase() === name.toLowerCase()]. *)
Definition sameUser (name : JSValue) (vote : UserVote) : option bool :=
  match lowerCase (userName vote) with
  | Some a =>
      match lowerCase name with
      | Some b => Some (String.eqb a b)
      | None => None
      end
  | None => None
  end.

(** *** 3) POST /poll/user-dates *)

Definition invalidSubmission (name ds : JSValue) : bool :=
  negb (truthy name) || negb (truthy ds) || negb (isArray ds)
  || match ds with VArr l => (length l =? 0)%nat | _ => false end.

Definition elements (ds : JSValue) : list string :=
  match ds with
  | VArr l => l
  | _ => []
  end.

Definition postUserDates (name ds : JSValue) : M Response :=
  if invalidSubmission name ds then
    ret {| status := 400;
           body := ErrorBody "Invalid submission. Please provide your name and at least one date." |}
  else
    try_catch
      (raw <~ redisClient_get ;;
       match raw with
       | None => ret {| status := 404; body := ErrorBody "Poll not found." |}
       | Some poll =>
           votes <~ orTypeError (userVotes poll) ;;
           existingUserIndex <~ orTypeError (findIndex (sameUser name) votes) ;;
           votes' <~
             match existingUserIndex with
             | Some i => ret (alter (set_dates (elements ds)) i votes)
             | None =>
                 t <~ Date_now ;;
                 ret (votes ++ [ {| vote_id := pretty t; userName := name;
                                    dates := elements ds |} ])
             end ;;
           redisClient_set (set_userVotes votes' poll) ;;;
           io_emit "pollUpdated" ;;;
           ret {| status := 200; body := MessageBody "Availability submitted successfully." |}
       end)
      (fun _ => ret {| status := 500; body := ErrorBody "Server error submitting availability." |}).

(** *** 4) DELETE /poll/user-dates/:userName *)

Definition deleteUserDates (name : string) : M Response :=
  if negb (truthy (VStr name)) then
    ret {| status := 400; body := ErrorBody "Invalid request. Please provide a username." |}
  else
    try_catch
      (raw <~ redisClient_get ;;
       match raw with
       | None => ret {| status := 404; body := ErrorBody "Poll not found." |}
       | Some poll =>
           votes <~ orTypeError (userVotes poll) ;;
           userIndex <~ orTypeError (findIndex (sameUser (VStr name)) votes) ;;
           match userIndex with
           | None => ret {| status := 404; body := ErrorBody "User not found in the poll." |}
           | Some i =>
               redisClient_set (set_userVotes (delete i votes) poll) ;;;
               io_emit "pollUpdated" ;;;
               ret {| status := 200; body := MessageBody "User dates successfully deleted." |}
           end
       end)
      (fun _ => ret {| status := 500; body := ErrorBody "Server error deleting user dates." |}).

End Handlers.

(** ** Legacy: POST /poll/date *)

Definition postDate (newDate : JSValue) : M Response :=
  if negb (truthy newDate) then
    ret {| status := 400; body := ErrorBody "No date provided." |}
  else
    try_catch
      (raw <~ redisClient_get ;;
       match raw with
       | None => ret {| status := 404; body := ErrorBody "Poll not found." |}
       | Some poll =>
           redisClient_set
             (set_options (options poll ++ [ {| label := newDate; votes := 0 |} ]) poll) ;;;
           io_emit "pollUpdated" ;;;
           ret {| status := 200; body := MessageBody "Date added successfully." |}
       end)
      (fun _ => ret {| status := 500; body := ErrorBody "Server error adding date." |}).

(** ** Legacy: POST /poll/vote *)

(** [optionIndex < 0 || optionIndex >= poll.options.length]. *)
Definition invalidIndex (optionIndex : Prim) (poll : PollDocument) : bool :=
  js_lt (ToNumber optionIndex) (Some 0)
  || js_ge (ToNumber optionIndex) (Some (Z.of_nat (length (options poll)))).

(** [poll.options[optionIndex].votes++]: a TypeError when the element is
    [undefined]. *)
Definition castVote (optionIndex : Prim) (poll : PollDocument) : option PollDocument :=
  match slot optionIndex, element (options poll) optionIndex with
  | Some i, Some o => Some (set_options (<[i := incr_votes o]> (options poll)) poll)
  | _, _ => None
  end.

Definition postVote (optionIndex : Prim) : M Response :=
  try_catch
    (raw <~ redisClient_get ;;
     match raw with
     | None => ret {| status := 404; body := ErrorBody "Poll not found." |}
     | Some poll =>
         if invalidIndex optionIndex poll then
           ret {| status := 400; body := ErrorBody "Invalid option index." |}
         else
           poll' <~ orTypeError (castVote optionIndex poll) ;;
           redisClient_set poll' ;;;
           io_emit "pollUpdated" ;;;
           ret {| status := 200; body := MessageBody "Vote registered." |}
     end)
    (fun _ => ret {| status := 500; body := ErrorBody "Server error casting vote." |}).

(** ** Vocabulary of the statements *)

(** No store command of the coming ones rejects. *)
Definition reliable (w : World) : Prop :=
  Forall (fun b => b = false) (faults w).

(** The world after a successful [set]. *)
Definition written (doc : PollDocument) (w : World) : World :=
  {| store := Some doc; now := now w; faults := tail (faults w);
     trace := trace w ++ [RedisSet doc] |}.

(** The world after [io.emit]. *)
Definition emitted (name : string) (w : World) : World :=
  {| store := store w; now := now w; faults := faults w;
     trace := trace w ++ [Emit name] |}.

(** All the dates of all the votes, in the order the loops visit them. *)
Definition allDates (votes : list UserVote) : list string :=
  concat (map dates votes).

(** How many times [d] is listed, over all votes. *)
Definition occurrences (d : string) (votes : list UserVote) : nat :=
  count_occ String.string_dec (allDates votes) d.

(** How many votes list [d] at least once. *)
Definition supporters (d : string) (votes : list UserVote) : nat :=
  length (List.filter (fun v => existsb (String.eqb d) (dates v)) votes).

(** What [dateCounts] holds for the name [k] after the dates [ds]. *)
Definition expected (ds : list string) (k : string) : option Count :=
  match count_occ String.string_dec ds k with
  | O => None
  | S n => Some (Num (S n))
  end.

Definition counted (ds : list string) (o : DateCounts) : Prop :=
  NoDup (map fst o) /\ forall k, own k o = expected ds k.

(** The count is a Number. *)
Definition numeric (p : PopularDate) : Prop :=
  exists n, count p = Num n.

(** [a] is listed before [b] in a list sorted by descending count. *)
Definition descending (a b : PopularDate) : Prop :=
  exists na nb : nat, count a = Num na /\ count b = Num nb /\ (nb <= na)%nat.

(** No date is a name of [Object.prototype]. *)
Definition plainDates (votes : list UserVote) : Prop :=
  Forall (fun d => inherited d = false) (allDates votes).

(** The list [postUserDates] writes back: [r] is what [findIndex] found. *)
Definition submitted (name ds : JSValue) (t : Z) (r : option nat)
    (votes : list UserVote) : list UserVote :=
  match r with
  | Some i => alter (set_dates (elements ds)) i votes
  | None => votes ++ [ {| vote_id := pretty t; userName := name; dates := elements ds |} ]
  end.

(** Every stored [userName] is a string. *)
Definition namedByStrings (votes : list UserVote) : Prop :=
  Forall (fun v => exists s, userName v = VStr s) votes.

Section Names.

Variable toLowerCase : string -> string.

(** [vote] belongs to the user [name], case-insensitively. *)
Definition belongsTo (name : string) (vote : UserVote) : Prop :=
  exists s, userName vote = VStr s /\ toLowerCase s = toLowerCase name.

(** The lower-cased names of the entries whose [userName] is a string. *)
Definition lowerNames (votes : list UserVote) : list string :=
  omap (fun v => lowerCase toLowerCase (userName v)) votes.

(** At most one entry per case-insensitive [userName]. *)
Definition uniqueNames (votes : list UserVote) : Prop :=
  NoDup (lowerNames votes).

Definition invariant (s : option PollDocument) : Prop :=
  forall poll votes,
    s = Some poll -> userVotes poll = Some votes -> uniqueNames votes.

End Names.

(** ** Sample runs *)

(** A start on an empty store, with a store that answers. *)
Definition emptyWorld : World :=
  {| store := None; now := 1712000000000; faults := []; trace := [] |}.

(** After start-up. *)
Definition seededWorld : World := (ensurePollExists emptyWorld).2.

(** After start-up and one submission that lists the same date twice. *)
Definition repeatedDateWorld : World :=
  (postUserDates asciiToLowerCase (VStr "Ann")
     (VArr ["2024-04-05"; "2024-04-05"]%string) seededWorld).2.

(** ** Vocabulary of the further statements *)

(** The request was carried out: one [get], one [set] of [doc], one
    broadcast, in that order. *)
Definition committed (doc : PollDocument) (w w' : World) : Prop :=
  w' = emitted "pollUpdated" (written doc (issue RedisGet w)).

(** Nothing was written and nothing was broadcast: the store holds what it
    held, and the commands issued are none, the one [get], or the [get] and
    a [set] that the store rejected. *)
Definition untouched (w w' : World) : Prop :=
  store w' = store w /\
  (trace w' = trace w \/
   trace w' = trace w ++ [RedisGet] \/
   exists doc, trace w' = trace w ++ [RedisGet; RedisSet doc]).

(** A handler that answers every request, and either carries it out whole
    and answers 200, or changes nothing and answers 400, 404 or 500. *)
Definition allOrNothing (h : M Response) : Prop :=
  forall w : World,
    exists resp,
      (h w).1 = Ok resp /\
      ((status resp = 200%nat /\ exists doc, committed doc w (h w).2) \/
       ((status resp = 400%nat \/ status resp = 404%nat \/ status resp = 500%nat) /\
        untouched w (h w).2)).

(** [new] has every option of [old] at its place, with its label and at
    least its votes. *)
Definition extends (old new : list LegacyOption) : Prop :=
  forall (i : nat) (o : LegacyOption),
    old !! i = Some o ->
    exists o', new !! i = Some o' /\ label o' = label o /\ votes o <= votes o'.

(** One request changes [old] into [new]: no option is lost or relabelled,
    at most one option is added, with zero votes, and a counter of size at
    most 2^53, the range in which [votes++] adds one or, at 2^53, nothing,
    stays or goes up by one and is of that size afterwards. *)
Definition oneStep (old new : list LegacyOption) : Prop :=
  (length old <= length new <= S (length old))%nat /\
  (forall (i : nat) (o : LegacyOption),
     old !! i = Some o ->
     exists o', new !! i = Some o' /\ label o' = label o /\
                (Z.abs (votes o) <= 2 ^ 53 ->
                 votes o <= votes o' <= votes o + 1 /\
                 Z.abs (votes o') <= 2 ^ 53)) /\
  (forall (i : nat) (o' : LegacyOption),
     old !! i = None -> new !! i = Some o' -> votes o' = 0).

(** What the service runs: the initializer and the five routes. *)
Inductive Operation :=
  | Startup
  | GetPoll
  | PostUserDates (name ds : JSValue)
  | DeleteUserDates (name : string)
  | PostDate (newDate : JSValue)
  | PostVote (optionIndex : Prim).

Definition perform (toLowerCase : string -> string)
    (implementationOrder : list PopularDate -> list PopularDate)
    (op : Operation) (w : World) : World :=
  match op with
  | Startup => (ensurePollExists w).2
  | GetPoll => (getPoll implementationOrder w).2
  | PostUserDates name ds => (postUserDates toLowerCase name ds w).2
  | DeleteUserDates name => (deleteUserDates toLowerCase name w).2
  | PostDate newDate => (postDate newDate w).2
  | PostVote optionIndex => (postVote optionIndex w).2
  end.

(** The store contents the service can produce from an empty store: each
    operation runs in a world with any clock and any coming faults. *)
Inductive reachable (toLowerCase : string -> string)
    (implementationOrder : list PopularDate -> list PopularDate) :
    option PollDocument -> Prop :=
  | reachable_empty : reachable toLowerCase implementationOrder None
  | reachable_step (op : Operation) (w : World) :
      reachable toLowerCase implementationOrder (store w) ->
      reachable toLowerCase implementationOrder
        (store (perform toLowerCase implementationOrder op w)).

(** The shape of a document of this service. *)
Definition wellFormed (toLowerCase : string -> string) (poll : PollDocument) : Prop :=
  poll_id poll = poll_id initialData /\
  title poll = title initialData /\
  (exists votes, userVotes poll = Some votes /\ uniqueNames toLowerCase votes) /\
  extends (options initialData) (options poll) /\
  Forall (fun o => 0 <= votes o <= 2 ^ 53) (options poll).

(** What [dateCounts] holds for the name [k] after the dates [ds],
    whatever the dates are: no property [__proto__], a string for another
    name of [Object.prototype], the number of occurrences for any other
    name. *)
Definition tally (ds : list string) (k : string) : option Count :=
  if inherited k then
    if String.eqb k "__proto__" then None
    else
      match count_occ String.string_dec ds k with
      | O => None
      | S _ => Some Text
      end
  else expected ds k.

Definition tallied (ds : list string) (o : DateCounts) : Prop :=
  NoDup (map fst o) /\ forall k, own k o = tally ds k.

(** ** More sample runs *)

(** An order for the sample runs: the array as it is. *)
Definition sampleOrder (l : list PopularDate) : list PopularDate := l.



(** A poll whose first option has 2^53 votes. *)
Definition fullCounterPoll : PollDocument :=
  {| poll_id := "seat-22222-3333-4444-555555555555";
     title := "Seattle Work Get-Together";
     userVotes := Some [];
     options := [ {| label := VStr "2024-04-05"; votes := 9007199254740992 |} ] |}.

Definition fullCounterWorld : World :=
  {| store := Some fullCounterPoll; now := 1712000000000; faults := []; trace := [] |}.

(** ** Properties *)

(** *** The monad and the store commands *)

Lemma bind_eq {A B : Type} (m : M A) (k : A -> M B) (w : World) :
  bind m k w =
  match m w with
  | (Ok a, w') => k a w'
  | (Thrown e, w') => (Thrown e, w')
  end.
Proof. reflexivity. Qed.

Lemma reliable_rejects (w : World) : reliable w -> rejects w = false.
Proof.
  unfold reliable, rejects. destruct (faults w) as [|[] fs]; try reflexivity.
  intros H. apply Forall_cons in H as [H _]. discriminate H.
Qed.

Lemma reliable_issue (e : Event) (w : World) : reliable w -> reliable (issue e w).
Proof.
  unfold reliable, issue. simpl. destruct (faults w) as [|b fs]; simpl.
  - intros _. constructor.
  - intros H. apply Forall_cons in H as [_ H]. exact H.
Qed.

Lemma get_ok (w : World) :
  rejects w = false -> redisClient_get w = (Ok (store w), issue RedisGet w).
Proof. intros H. unfold redisClient_get. rewrite H. reflexivity. Qed.

Lemma set_ok (doc : PollDocument) (w : World) :
  rejects w = false -> redisClient_set doc w = (Ok tt, written doc w).
Proof. intros H. unfold redisClient_set. rewrite H. reflexivity. Qed.

(** *** GET /poll is read-only *)

(** C9. GET /poll never writes: for every world, whatever the store holds
    and whether the store command rejects or not, the handler answers, the
    store afterwards holds what it held before, and the only command issued
    is the one [get]. *)
Theorem getPoll_read_only
    (implementationOrder : list PopularDate -> list PopularDate) (w : World) :
  (exists r, (getPoll implementationOrder w).1 = Ok r) /\
  store (getPoll implementationOrder w).2 = store w /\
  trace (getPoll implementationOrder w).2 = trace w ++ [RedisGet].
Proof.
  unfold getPoll, try_catch. rewrite bind_eq. unfold redisClient_get.
  destruct (rejects w); simpl; [| destruct (store w) eqn:E; simpl; rewrite ?E];
    (split; [eexists; reflexivity | split; reflexivity]).
Qed.

(** *** POST /poll/user-dates: validation comes first *)

Lemma invalidSubmission_cases (name ds : JSValue) :
  name = VPrim PUndefined \/ ds = VPrim PUndefined \/ isArray ds = false \/ ds = VArr [] ->
  invalidSubmission name ds = true.
Proof.
  unfold invalidSubmission.
  intros [-> | [-> | [H | ->]]]; simpl.
  - reflexivity.
  - destruct (truthy name); reflexivity.
  - rewrite H. destruct (truthy name), (truthy ds); reflexivity.
  - destruct (truthy name); reflexivity.
Qed.

(** C8. A body without [userName], without [dates], with a [dates] that is
    not an array or with an empty [dates] array is answered with status 400
    and the world is left as it was: nothing is added to the trace, so no
    store command was issued, and the store is unchanged. *)
Theorem postUserDates_validation_first
    (toLowerCase : string -> string) (name ds : JSValue) (w : World) :
  name = VPrim PUndefined \/ ds = VPrim PUndefined \/ isArray ds = false \/ ds = VArr [] ->
  postUserDates toLowerCase name ds w =
  (Ok {| status := 400;
         body := ErrorBody "Invalid submission. Please provide your name and at least one date." |},
   w).
Proof.
  intros H. unfold postUserDates.
  rewrite (invalidSubmission_cases name ds H). reflexivity.
Qed.

Lemma postUserDates_validation_first_witness :
  postUserDates asciiToLowerCase (VStr "Ann") (VArr [])
    {| store := Some initialData; now := 1712000000000; faults := []; trace := [] |} =
  (Ok {| status := 400;
         body := ErrorBody "Invalid submission. Please provide your name and at least one date." |},
   {| store := Some initialData; now := 1712000000000; faults := []; trace := [] |}).
Proof.
  apply (postUserDates_validation_first asciiToLowerCase (VStr "Ann") (VArr [])).
  right. right. right. reflexivity.
Defined.

(** *** ensurePollExists *)

Lemma ensurePollExists_absent (w : World) :
  reliable w -> store w = None ->
  ensurePollExists w = (Ok tt, written initialData (issue RedisGet w)).
Proof.
  intros Hr Hs. unfold ensurePollExists. rewrite bind_eq.
  rewrite (get_ok w (reliable_rejects w Hr)), Hs.
  apply set_ok, reliable_rejects, reliable_issue, Hr.
Qed.

Lemma ensurePollExists_older_shape (w : World) (poll : PollDocument) :
  reliable w -> store w = Some poll -> userVotes poll = None ->
  ensurePollExists w = (Ok tt, written (set_userVotes [] poll) (issue RedisGet w)).
Proof.
  intros Hr Hs Hv. unfold ensurePollExists. rewrite bind_eq.
  rewrite (get_ok w (reliable_rejects w Hr)), Hs, Hv.
  apply set_ok, reliable_rejects, reliable_issue, Hr.
Qed.

Lemma ensurePollExists_current_shape (w : World) (poll : PollDocument) (votes : list UserVote) :
  reliable w -> store w = Some poll -> userVotes poll = Some votes ->
  ensurePollExists w = (Ok tt, issue RedisGet w).
Proof.
  intros Hr Hs Hv. unfold ensurePollExists. rewrite bind_eq.
  rewrite (get_ok w (reliable_rejects w Hr)), Hs, Hv. reflexivity.
Qed.

(** C5. With a store that answers, [ensurePollExists]
    - on an empty store writes [initialData]: the fixed identifier and title,
      an empty [userVotes], three options with zero votes each;
    - on a document without [userVotes] writes that document with an empty
      [userVotes], its identifier, title and options as they were;
    - on a document that has [userVotes] issues the one [get] and no [set],
      and the store is unchanged. *)
Theorem ensurePollExists_spec (w : World) :
  reliable w ->
  (store w = None ->
     store (ensurePollExists w).2 = Some initialData /\
     trace (ensurePollExists w).2 = trace w ++ [RedisGet; RedisSet initialData] /\
     poll_id initialData = "seat-22222-3333-4444-555555555555"%string /\
     title initialData = "Seattle Work Get-Together"%string /\
     userVotes initialData = Some [] /\
     length (options initialData) = 3%nat /\
     Forall (fun o => votes o = 0) (options initialData)) /\
  (forall poll, store w = Some poll -> userVotes poll = None ->
     exists poll',
       store (ensurePollExists w).2 = Some poll' /\
       trace (ensurePollExists w).2 = trace w ++ [RedisGet; RedisSet poll'] /\
       userVotes poll' = Some [] /\
       poll_id poll' = poll_id poll /\ title poll' = title poll /\
       options poll' = options poll) /\
  (forall poll votes, store w = Some poll -> userVotes poll = Some votes ->
     store (ensurePollExists w).2 = store w /\
     trace (ensurePollExists w).2 = trace w ++ [RedisGet]).
Proof.
  intros Hr. split; [| split].
  - intros Hs. rewrite (ensurePollExists_absent w Hr Hs). simpl.
    rewrite <- app_assoc. repeat split. repeat constructor.
  - intros poll Hs Hv. exists (set_userVotes [] poll).
    rewrite (ensurePollExists_older_shape w poll Hr Hs Hv). simpl.
    rewrite <- app_assoc. repeat split.
  - intros poll votes Hs Hv.
    rewrite (ensurePollExists_current_shape w poll votes Hr Hs Hv). simpl.
    split; reflexivity.
Qed.

Lemma ensurePollExists_spec_witness :
  store (ensurePollExists
           {| store := None; now := 1712000000000; faults := []; trace := [] |}).2
  = Some initialData.
Proof.
  apply (ensurePollExists_spec
           {| store := None; now := 1712000000000; faults := []; trace := [] |}).
  - constructor.
  - reflexivity.
Defined.

(** *** Legacy: POST /poll/vote *)

Lemma invalidIndex_number (i : Z) (poll : PollDocument) :
  invalidIndex (PNum i) poll = (i <? 0) || (Z.of_nat (length (options poll)) <=? i).
Proof. reflexivity. Qed.

Lemma postVote_out_of_bounds (w : World) (poll : PollDocument) (k : Prim) :
  rejects w = false -> store w = Some poll -> invalidIndex k poll = true ->
  postVote k w =
  (Ok {| status := 400; body := ErrorBody "Invalid option index." |}, issue RedisGet w).
Proof.
  intros Hr Hs Hk. unfold postVote, try_catch. rewrite bind_eq.
  rewrite (get_ok w Hr), Hs, Hk. reflexivity.
Qed.

Lemma postVote_in_bounds (w : World) (poll : PollDocument) (i : Z) (o : LegacyOption) :
  reliable w -> store w = Some poll ->
  0 <= i -> options poll !! Z.to_nat i = Some o ->
  postVote (PNum i) w =
  (Ok {| status := 200; body := MessageBody "Vote registered." |},
   emitted "pollUpdated"
     (written (set_options (<[Z.to_nat i := incr_votes o]> (options poll)) poll)
        (issue RedisGet w))).
Proof.
  intros Hr Hs Hi Ho. unfold postVote, try_catch. rewrite bind_eq.
  rewrite (get_ok w (reliable_rejects w Hr)), Hs.
  assert (Hlt : (Z.to_nat i < length (options poll))%nat).
  { apply lookup_lt_is_Some. eauto. }
  rewrite invalidIndex_number.
  replace (i <? 0) with false by (symmetry; apply Z.ltb_ge; lia).
  replace (Z.of_nat (length (options poll)) <=? i) with false
    by (symmetry; apply Z.leb_gt; lia).
  cbn [orb].
  rewrite bind_eq. unfold castVote, element, slot.
  replace (i <? 0) with false by (symmetry; apply Z.ltb_ge; lia).
  rewrite Ho. simpl orTypeError. unfold ret at 1. cbv iota beta.
  rewrite bind_eq.
  rewrite (set_ok _ _ (reliable_rejects _ (reliable_issue RedisGet w Hr))).
  reflexivity.
Qed.

Lemma postVote_not_a_number (w : World) (poll : PollDocument) (k : Prim) :
  store w = Some poll -> ToNumber k = None ->
  postVote k w =
  (Ok {| status := 500; body := ErrorBody "Server error casting vote." |}, issue RedisGet w).
Proof.
  intros Hs Hk. unfold postVote, try_catch. rewrite bind_eq.
  unfold redisClient_get. destruct (rejects w); [reflexivity |].
  rewrite Hs. unfold invalidIndex. rewrite Hk. simpl.
  destruct k as [| | b | n]; try discriminate Hk. reflexivity.
Qed.

Lemma binary64_exact (z : Z) : Z.abs z <= 2 ^ 53 -> binary64 z = z.
Proof.
  change (2 ^ 53) with 9007199254740992. intros H.
  destruct (Z.eq_dec (Z.abs z) 9007199254740992) as [E | E].
  - assert (Hz : z = 9007199254740992 \/ z = - 9007199254740992) by lia.
    destruct Hz as [-> | ->]; reflexivity.
  - unfold binary64.
    assert (Hlog : Z.log2 (Z.abs z) <= 52).
    { destruct (Z.eq_dec (Z.abs z) 0) as [E0 | E0]; [rewrite E0; simpl; lia |].
      assert (Z.log2 (Z.abs z) < 53); [| lia].
      apply Z.log2_lt_pow2; [lia |].
      change (2 ^ 53) with 9007199254740992. lia. }
    apply Z.leb_le in Hlog. rewrite Hlog. reflexivity.
Qed.

(** [votes++] on a counter of size at most 2^53: one more, or the same at
    2^53, and again of size at most 2^53. *)
Lemma incr_in_range (v : Z) :
  Z.abs v <= 2 ^ 53 ->
  v <= binary64 (v + 1) <= v + 1 /\ Z.abs (binary64 (v + 1)) <= 2 ^ 53.
Proof.
  change (2 ^ 53) with 9007199254740992. intros H.
  destruct (Z.eq_dec v 9007199254740992) as [-> | E].
  - vm_compute. repeat split; discriminate.
  - rewrite binary64_exact by (change (2 ^ 53) with 9007199254740992; lia). lia.
Qed.

(** Beyond 2^53 the sum is rounded to the nearest binary64, ties to the even
    significand: a counter at 2^53 stays, one at 2^53 + 2 goes up by two. *)
Example binary64_rounds :
  binary64 (9007199254740992 + 1) = 9007199254740992 /\
  binary64 (9007199254740994 + 1) = 9007199254740996 /\
  binary64 (9007199254740996 + 1) = 9007199254740996.
Proof. repeat split. Qed.

(** C6, as the code has it.  With a store that answers and holds [poll]:
    - an [optionIndex] that is an integer with
      [0 <= i < length (options poll)] is answered with status 200 and the
      store then holds a document with the same identifier, title and
      [userVotes], as many options, every other option as it was, and the
      option at [i] with the same label and, where its counter is below 2^53
      in size, one vote more;
    - an [optionIndex] outside these bounds is answered with status 400; the
      one [get] is the only store command and the store is unchanged. *)
Theorem postVote_spec (w : World) (poll : PollDocument) (i : Z) :
  reliable w -> store w = Some poll ->
  (0 <= i < Z.of_nat (length (options poll)) ->
     exists o poll' o',
       options poll !! Z.to_nat i = Some o /\
       (postVote (PNum i) w).1 =
         Ok {| status := 200; body := MessageBody "Vote registered." |} /\
       store (postVote (PNum i) w).2 = Some poll' /\
       poll_id poll' = poll_id poll /\ title poll' = title poll /\
       userVotes poll' = userVotes poll /\
       length (options poll') = length (options poll) /\
       options poll' !! Z.to_nat i = Some o' /\ label o' = label o /\
       (Z.abs (votes o) < 2 ^ 53 -> votes o' = votes o + 1) /\
       (forall j : nat, j <> Z.to_nat i -> options poll' !! j = options poll !! j)) /\
  (i < 0 \/ Z.of_nat (length (options poll)) <= i ->
     (postVote (PNum i) w).1 =
       Ok {| status := 400; body := ErrorBody "Invalid option index." |} /\
     store (postVote (PNum i) w).2 = store w /\
     trace (postVote (PNum i) w).2 = trace w ++ [RedisGet]).
Proof.
  intros Hr Hs. split.
  - intros [H0 Hn].
    destruct (lookup_lt_is_Some_2 (options poll) (Z.to_nat i)) as [o Ho]; [lia |].
    exists o, (set_options (<[Z.to_nat i := incr_votes o]> (options poll)) poll),
      (incr_votes o).
    rewrite (postVote_in_bounds w poll i o Hr Hs H0 Ho). simpl.
    repeat split.
    + exact Ho.
    + apply length_insert.
    + apply list_lookup_insert_eq. apply lookup_lt_is_Some. eauto.
    + intros Hv. apply binary64_exact.
      change (2 ^ 53) with 9007199254740992 in *. lia.
    + intros j Hj. apply list_lookup_insert_ne. congruence.
  - intros Hi.
    rewrite (postVote_out_of_bounds w poll (PNum i) (reliable_rejects w Hr) Hs).
    + simpl. repeat split.
    + rewrite invalidIndex_number. apply orb_true_iff.
      destruct Hi; [left; apply Z.ltb_lt | right; apply Z.leb_le]; lia.
Qed.

Lemma postVote_spec_witness :
  exists o poll' o',
    options initialData !! Z.to_nat 1 = Some o /\
    (postVote (PNum 1) seededWorld).1 =
      Ok {| status := 200; body := MessageBody "Vote registered." |} /\
    store (postVote (PNum 1) seededWorld).2 = Some poll' /\
    poll_id poll' = poll_id initialData /\ title poll' = title initialData /\
    userVotes poll' = userVotes initialData /\
    length (options poll') = length (options initialData) /\
    options poll' !! Z.to_nat 1 = Some o' /\ label o' = label o /\
    (Z.abs (votes o) < 2 ^ 53 -> votes o' = votes o + 1) /\
    (forall j : nat, j <> Z.to_nat 1 -> options poll' !! j = options initialData !! j).
Proof.
  apply (postVote_spec seededWorld initialData 1).
  - constructor.
  - reflexivity.
  - simpl. lia.
Defined.

(** C6, as stated, fails.  On a stored poll whose option 0 has 2^53 votes,
    POST /poll/vote with [optionIndex] 0 is answered 200, and the document
    it writes back is the stored one: the counter is still 2^53, not one
    more. *)
Lemma vote_at_full_counter :
  store fullCounterWorld = Some fullCounterPoll /\
  options fullCounterPoll !! 0%nat =
    Some {| label := VStr "2024-04-05"; votes := 9007199254740992 |} /\
  postVote (PNum 0) fullCounterWorld =
    (Ok {| status := 200; body := MessageBody "Vote registered." |},
     emitted "pollUpdated" (written fullCounterPoll (issue RedisGet fullCounterWorld))) /\
  option_map options (store (postVote (PNum 0) fullCounterWorld).2) =
    Some [ {| label := VStr "2024-04-05"; votes := 9007199254740992 |} ].
Proof. repeat split. Qed.

(** C10. With a stored [poll], an [optionIndex] whose ToNumber is NaN, as
    that of a body without [optionIndex] is, passes the guard, because both
    comparisons are false; it names no element of [options]; and the request
    is answered with status 500, not 400, the store unchanged. *)
Theorem postVote_missing_index (w : World) (poll : PollDocument) (k : Prim) :
  store w = Some poll -> ToNumber k = None ->
  ToNumber PUndefined = None /\
  js_lt (ToNumber k) (Some 0) = false /\
  js_ge (ToNumber k) (Some (Z.of_nat (length (options poll)))) = false /\
  invalidIndex k poll = false /\
  element (options poll) k = None /\
  (postVote k w).1 =
    Ok {| status := 500; body := ErrorBody "Server error casting vote." |} /\
  store (postVote k w).2 = store w.
Proof.
  intros Hs Hk.
  rewrite (postVote_not_a_number w poll k Hs Hk).
  unfold invalidIndex. rewrite Hk. simpl.
  destruct k as [| | b | n]; try discriminate Hk.
  repeat split.
Qed.

Lemma postVote_missing_index_witness :
  (postVote PUndefined
     {| store := Some initialData; now := 1712000000000; faults := []; trace := [] |}).1 =
  Ok {| status := 500; body := ErrorBody "Server error casting vote." |}.
Proof.
  apply (postVote_missing_index
           {| store := Some initialData; now := 1712000000000; faults := []; trace := [] |}
           initialData PUndefined); reflexivity.
Defined.

(** *** [findIndex] *)

Lemma findIndex_none {A : Type} (p : A -> option bool) (l : list A) :
  findIndex p l = Some None -> Forall (fun x => p x = Some false) l.
Proof.
  induction l as [|x l IH]; simpl; intros H.
  - constructor.
  - destruct (p x) as [[|]|] eqn:Hx; try discriminate H.
    destruct (findIndex p l) as [[i|]|]; try discriminate H.
    constructor; [exact Hx | apply IH; reflexivity].
Qed.

Lemma findIndex_found {A : Type} (p : A -> option bool) (l : list A) (i : nat) :
  findIndex p l = Some (Some i) ->
  exists before x after,
    l = before ++ x :: after /\ length before = i /\
    Forall (fun y => p y = Some false) before /\ p x = Some true.
Proof.
  revert i. induction l as [|x l IH]; simpl; intros i H.
  - discriminate H.
  - destruct (p x) as [[|]|] eqn:Hx; try discriminate H.
    + injection H as <-. exists [], x, l. repeat split; [constructor | exact Hx].
    + destruct (findIndex p l) as [[j|]|]; try discriminate H.
      injection H as <-.
      destruct (IH j eq_refl) as (before & y & after & -> & Hlen & Hb & Hy).
      exists (x :: before), y, after. simpl. rewrite Hlen.
      repeat split; [constructor; assumption | exact Hy].
Qed.

Lemma findIndex_first {A : Type} (p : A -> option bool) (before after : list A) (x : A) :
  Forall (fun y => p y = Some false) before -> p x = Some true ->
  findIndex p (before ++ x :: after) = Some (Some (length before)).
Proof.
  intros Hb Hx. induction Hb as [|y before Hy _ IH]; simpl.
  - rewrite Hx. reflexivity.
  - rewrite Hy, IH. reflexivity.
Qed.

Lemma findIndex_all_false {A : Type} (p : A -> option bool) (l : list A) :
  Forall (fun y => p y = Some false) l -> findIndex p l = Some None.
Proof.
  intros H. induction H as [|y l Hy _ IH]; simpl.
  - reflexivity.
  - rewrite Hy, IH. reflexivity.
Qed.

(** Where the callback never throws, [findIndex] stops at the first element
    it holds of, or holds of none. *)
Lemma findIndex_split {A : Type} (p : A -> option bool) (l : list A) :
  Forall (fun x => is_Some (p x)) l ->
  (exists before x after,
     l = before ++ x :: after /\
     Forall (fun y => p y = Some false) before /\ p x = Some true) \/
  Forall (fun y => p y = Some false) l.
Proof.
  intros H. induction H as [|x l [b Hx] _ IH].
  - right. constructor.
  - destruct b.
    + left. exists [], x, l. repeat split; [constructor | exact Hx].
    + destruct IH as [(before & y & after & -> & Hb & Hy) | IH].
      * left. exists (x :: before), y, after.
        repeat split; [constructor; assumption | exact Hy].
      * right. constructor; assumption.
Qed.

(** *** Names *)

Section NameFacts.

Variable toLowerCase : string -> string.

Lemma sameUser_string (name s : string) (v : UserVote) :
  userName v = VStr s ->
  sameUser toLowerCase (VStr name) v =
  Some (String.eqb (toLowerCase s) (toLowerCase name)).
Proof. intros H. unfold sameUser. rewrite H. reflexivity. Qed.

Lemma sameUser_true (name : string) (v : UserVote) :
  sameUser toLowerCase (VStr name) v = Some true <-> belongsTo toLowerCase name v.
Proof.
  unfold sameUser, belongsTo, lowerCase. split.
  - destruct (userName v) as [p | s | l]; try discriminate.
    intros H. injection H as H. apply String.eqb_eq in H. eauto.
  - intros (s & -> & H). rewrite H, String.eqb_refl. reflexivity.
Qed.

Lemma sameUser_false (name : string) (v : UserVote) :
  (exists s, userName v = VStr s) ->
  sameUser toLowerCase (VStr name) v = Some false <-> ~ belongsTo toLowerCase name v.
Proof.
  intros [s Hs]. rewrite (sameUser_string name s v Hs). split.
  - intros H (s' & Hs' & E). rewrite Hs in Hs'. injection Hs' as <-.
    rewrite E, String.eqb_refl in H. discriminate H.
  - intros H. f_equal. apply String.eqb_neq. intros E. apply H. exists s. auto.
Qed.

Lemma sameUser_total (name : string) (votes : list UserVote) :
  namedByStrings votes ->
  Forall (fun v => is_Some (sameUser toLowerCase (VStr name) v)) votes.
Proof.
  intros H. eapply Forall_impl; [exact H |]. intros v [s Hs].
  rewrite (sameUser_string name s v Hs). eauto.
Qed.

(** The first entry of [name], or none: what [findIndex] decides on a
    document whose names are strings. *)
Lemma first_entry (name : string) (votes : list UserVote) :
  namedByStrings votes ->
  (Exists (belongsTo toLowerCase name) votes ->
     exists before v after,
       votes = before ++ v :: after /\
       Forall (fun x => ~ belongsTo toLowerCase name x) before /\
       belongsTo toLowerCase name v /\
       findIndex (sameUser toLowerCase (VStr name)) votes = Some (Some (length before))) /\
  (~ Exists (belongsTo toLowerCase name) votes ->
     findIndex (sameUser toLowerCase (VStr name)) votes = Some None).
Proof.
  intros Hn.
  destruct (findIndex_split _ votes (sameUser_total name votes Hn))
    as [(before & v & after & E & Hb & Hv) | Hall].
  - assert (Hb' : Forall (fun x => ~ belongsTo toLowerCase name x) before).
    { subst votes. apply Forall_app in Hn as [Hn _].
      apply Forall_forall. intros x Hx.
      apply sameUser_false.
      - rewrite Forall_forall in Hn. auto.
      - rewrite Forall_forall in Hb. auto. }
    split.
    + intros _. exists before, v, after.
      repeat split; [exact E | exact Hb' | apply sameUser_true, Hv |].
      rewrite E. apply findIndex_first; assumption.
    + intros H. exfalso. apply H. rewrite E.
      apply Exists_app. right. constructor. apply sameUser_true, Hv.
  - split.
    + intros H. exfalso. apply Exists_exists in H as (v & Hin & Hv).
      rewrite Forall_forall in Hall. specialize (Hall v Hin).
      apply sameUser_true in Hv. congruence.
    + intros _. apply findIndex_all_false, Hall.
Qed.



End NameFacts.

(** *** POST /poll/user-dates and DELETE /poll/user-dates/:userName *)

Lemma alter_first {A : Type} (f : A -> A) (before after : list A) (x : A) :
  alter f (length before) (before ++ x :: after) = before ++ f x :: after.
Proof.
  rewrite <- (Nat.add_0_r (length before)) at 1.
  rewrite alter_app_r. reflexivity.
Qed.

Lemma valid_submission (u : string) (ds : list string) :
  u <> ""%string -> ds <> [] -> invalidSubmission (VStr u) (VArr ds) = false.
Proof.
  intros Hu Hd. unfold invalidSubmission. simpl.
  apply String.eqb_neq in Hu. rewrite Hu.
  destruct ds; [contradiction | reflexivity].
Qed.

Section Runs.

Variable toLowerCase : string -> string.

Lemma postUserDates_run (name ds : JSValue) (w : World) (poll : PollDocument)
    (votes : list UserVote) (r : option nat) :
  reliable w -> store w = Some poll -> userVotes poll = Some votes ->
  invalidSubmission name ds = false ->
  findIndex (sameUser toLowerCase name) votes = Some r ->
  postUserDates toLowerCase name ds w =
  (Ok {| status := 200; body := MessageBody "Availability submitted successfully." |},
   emitted "pollUpdated"
     (written (set_userVotes (submitted name ds (now w) r votes) poll)
        (issue RedisGet w))).
Proof.
  intros Hr Hs Hv Hi Hf. unfold postUserDates. rewrite Hi.
  unfold try_catch. rewrite bind_eq.
  rewrite (get_ok w (reliable_rejects w Hr)), Hs.
  rewrite bind_eq, Hv. simpl orTypeError. unfold ret at 1. cbv iota beta.
  rewrite bind_eq, Hf. simpl orTypeError. unfold ret at 1. cbv iota beta.
  rewrite bind_eq.
  assert (Hset : forall doc,
             redisClient_set doc (issue RedisGet w) =
             (Ok tt, written doc (issue RedisGet w))).
  { intros doc. apply set_ok, reliable_rejects, reliable_issue, Hr. }
  destruct r as [i|]; simpl; rewrite bind_eq, Hset; reflexivity.
Qed.

Lemma deleteUserDates_found (name : string) (w : World) (poll : PollDocument)
    (votes : list UserVote) (i : nat) :
  reliable w -> store w = Some poll -> userVotes poll = Some votes ->
  name <> ""%string ->
  findIndex (sameUser toLowerCase (VStr name)) votes = Some (Some i) ->
  deleteUserDates toLowerCase name w =
  (Ok {| status := 200; body := MessageBody "User dates successfully deleted." |},
   emitted "pollUpdated"
     (written (set_userVotes (delete i votes) poll) (issue RedisGet w))).
Proof.
  intros Hr Hs Hv Hn Hf. unfold deleteUserDates, truthy.
  apply String.eqb_neq in Hn. rewrite Hn. cbn [negb].
  unfold try_catch. rewrite bind_eq.
  rewrite (get_ok w (reliable_rejects w Hr)), Hs.
  rewrite bind_eq, Hv. simpl orTypeError. unfold ret at 1. cbv iota beta.
  rewrite bind_eq, Hf. simpl orTypeError. unfold ret at 1. cbv iota beta.
  rewrite bind_eq.
  rewrite (set_ok _ _ (reliable_rejects _ (reliable_issue RedisGet w Hr))).
  reflexivity.
Qed.

Lemma deleteUserDates_not_found (name : string) (w : World) (poll : PollDocument)
    (votes : list UserVote) :
  rejects w = false -> store w = Some poll -> userVotes poll = Some votes ->
  name <> ""%string ->
  findIndex (sameUser toLowerCase (VStr name)) votes = Some None ->
  deleteUserDates toLowerCase name w =
  (Ok {| status := 404; body := ErrorBody "User not found in the poll." |},
   issue RedisGet w).
Proof.
  intros Hr Hs Hv Hn Hf. unfold deleteUserDates, truthy.
  apply String.eqb_neq in Hn. rewrite Hn. cbn [negb].
  unfold try_catch. rewrite bind_eq.
  rewrite (get_ok w Hr), Hs.
  rewrite bind_eq, Hv. simpl orTypeError. unfold ret at 1. cbv iota beta.
  rewrite bind_eq, Hf. reflexivity.
Qed.

End Runs.







(** *** What a mutating handler can leave in the store *)

Lemma try_catch_store {A : Type} (m : M A) (r : A) (w : World) :
  store (try_catch m (fun _ => ret r) w).2 = store (m w).2.
Proof. unfold try_catch. destruct (m w) as [[a|e] w']; reflexivity. Qed.

(** [set], [emit], respond: the store keeps its content or holds [doc]. *)
Lemma persist_store (doc : PollDocument) (name : string) (r : Response) (w : World) :
  store ((redisClient_set doc ;;; io_emit name ;;; ret r) w).2 = store w \/
  store ((redisClient_set doc ;;; io_emit name ;;; ret r) w).2 = Some doc.
Proof.
  rewrite bind_eq. unfold redisClient_set.
  destruct (rejects w); [left | right]; reflexivity.
Qed.

Lemma postUserDates_store (toLowerCase : string -> string) (name ds : JSValue)
    (w : World) (s' : option PollDocument) :
  store (postUserDates toLowerCase name ds w).2 = s' ->
  s' = store w \/
  exists poll votes r,
    store w = Some poll /\ userVotes poll = Some votes /\
    findIndex (sameUser toLowerCase name) votes = Some r /\
    s' = Some (set_userVotes (submitted name ds (now w) r votes) poll).
Proof.
  unfold postUserDates.
  destruct (invalidSubmission name ds); [intros <-; left; reflexivity |].
  rewrite try_catch_store, bind_eq. unfold redisClient_get.
  destruct (rejects w); [intros <-; left; reflexivity |].
  destruct (store w) as [poll|] eqn:Hs; [| intros <-; left; simpl; exact Hs].
  rewrite bind_eq.
  destruct (userVotes poll) as [votes|] eqn:Hv; [| intros <-; left; simpl; exact Hs].
  simpl orTypeError. unfold ret at 1. cbv iota beta. rewrite bind_eq.
  destruct (findIndex (sameUser toLowerCase name) votes) as [r|] eqn:Hf;
    [| intros <-; left; simpl; exact Hs].
  simpl orTypeError. unfold ret at 1. cbv iota beta. rewrite bind_eq.
  assert (Hstep :
    (match r with
     | Some i => ret (alter (set_dates (elements ds)) i votes)
     | None =>
         t <~ Date_now ;;
         ret (votes ++ [ {| vote_id := pretty t; userName := name;
                            dates := elements ds |} ])
     end) (issue RedisGet w) =
    (Ok (submitted name ds (now w) r votes), issue RedisGet w)).
  { destruct r; reflexivity. }
  rewrite Hstep.
  destruct (persist_store (set_userVotes (submitted name ds (now w) r votes) poll)
              "pollUpdated"
              {| status := 200; body := MessageBody "Availability submitted successfully." |}
              (issue RedisGet w)) as [H | H]; rewrite H; intros <-.
  - left. simpl. exact Hs.
  - right. exists poll, votes, r. repeat split; first [assumption | reflexivity].
Qed.

Lemma deleteUserDates_store (toLowerCase : string -> string) (name : string)
    (w : World) (s' : option PollDocument) :
  store (deleteUserDates toLowerCase name w).2 = s' ->
  s' = store w \/
  exists poll votes i,
    store w = Some poll /\ userVotes poll = Some votes /\
    s' = Some (set_userVotes (delete i votes) poll).
Proof.
  unfold deleteUserDates.
  destruct (negb (truthy (VStr name))); [intros <-; left; reflexivity |].
  rewrite try_catch_store, bind_eq. unfold redisClient_get.
  destruct (rejects w); [intros <-; left; reflexivity |].
  destruct (store w) as [poll|] eqn:Hs; [| intros <-; left; simpl; exact Hs].
  rewrite bind_eq.
  destruct (userVotes poll) as [votes|] eqn:Hv; [| intros <-; left; simpl; exact Hs].
  simpl orTypeError. unfold ret at 1. cbv iota beta. rewrite bind_eq.
  destruct (findIndex (sameUser toLowerCase (VStr name)) votes) as [[i|]|] eqn:Hf;
    try (intros <-; left; simpl; exact Hs).
  simpl orTypeError. unfold ret at 1. cbv iota beta.
  destruct (persist_store (set_userVotes (delete i votes) poll)
              "pollUpdated"
              {| status := 200; body := MessageBody "User dates successfully deleted." |}
              (issue RedisGet w)) as [H | H]; rewrite H; intros <-.
  - left. simpl. exact Hs.
  - right. exists poll, votes, i. repeat split; first [assumption | reflexivity].
Qed.

Lemma postDate_store (newDate : JSValue) (w : World) (s' : option PollDocument) :
  store (postDate newDate w).2 = s' ->
  s' = store w \/
  exists poll os, store w = Some poll /\ s' = Some (set_options os poll).
Proof.
  unfold postDate.
  destruct (negb (truthy newDate)); [intros <-; left; reflexivity |].
  rewrite try_catch_store, bind_eq. unfold redisClient_get.
  destruct (rejects w); [intros <-; left; reflexivity |].
  destruct (store w) as [poll|] eqn:Hs; [| intros <-; left; simpl; exact Hs].
  destruct (persist_store
              (set_options (options poll ++ [ {| label := newDate; votes := 0 |} ]) poll)
              "pollUpdated"
              {| status := 200; body := MessageBody "Date added successfully." |}
              (issue RedisGet w)) as [H | H]; rewrite H; intros <-.
  - left. simpl. exact Hs.
  - right. eexists poll, _. split; reflexivity.
Qed.

Lemma postVote_store (optionIndex : Prim) (w : World) (s' : option PollDocument) :
  store (postVote optionIndex w).2 = s' ->
  s' = store w \/
  exists poll os, store w = Some poll /\ s' = Some (set_options os poll).
Proof.
  unfold postVote.
  rewrite try_catch_store, bind_eq. unfold redisClient_get.
  destruct (rejects w); [intros <-; left; reflexivity |].
  destruct (store w) as [poll|] eqn:Hs; [| intros <-; left; simpl; exact Hs].
  destruct (invalidIndex optionIndex poll); [intros <-; left; simpl; exact Hs |].
  rewrite bind_eq. unfold castVote.
  destruct (slot optionIndex) as [i|]; [| intros <-; left; simpl; exact Hs].
  destruct (element (options poll) optionIndex) as [o|]; [| intros <-; left; simpl; exact Hs].
  simpl orTypeError. unfold ret at 1. cbv iota beta.
  destruct (persist_store
              (set_options (<[i := incr_votes o]> (options poll)) poll)
              "pollUpdated"
              {| status := 200; body := MessageBody "Vote registered." |}
              (issue RedisGet w)) as [H | H]; rewrite H; intros <-.
  - left. simpl. exact Hs.
  - right. eexists poll, _. split; reflexivity.
Qed.

(** *** At most one entry per name *)

Lemma omap_sublist {A B : Type} (f : A -> option B) (l1 l2 : list A) :
  sublist l1 l2 -> sublist (omap f l1) (omap f l2).
Proof.
  induction 1 as [| x l1 l2 _ IH | x l1 l2 _ IH]; simpl.
  - constructor.
  - destruct (f x); [constructor |]; exact IH.
  - destruct (f x); [constructor |]; exact IH.
Qed.

Section Uniqueness.

Variable toLowerCase : string -> string.

Lemma lowerNames_set_dates (ds : list string) (i : nat) (votes : list UserVote) :
  lowerNames toLowerCase (alter (set_dates ds) i votes) = lowerNames toLowerCase votes.
Proof.
  unfold lowerNames. revert i.
  induction votes as [|v votes IH]; intros [|i]; simpl; try reflexivity.
  specialize (IH i). unfold omap, alter in IH. rewrite IH. reflexivity.
Qed.

(** [uniqueNames], read entry by entry: two entries whose names are strings
    with the same lower case are one entry. *)
Lemma uniqueNames_pairwise (votes : list UserVote) :
  uniqueNames toLowerCase votes <->
  forall (i j : nat) (vi vj : UserVote) (si sj : string),
    votes !! i = Some vi -> votes !! j = Some vj ->
    userName vi = VStr si -> userName vj = VStr sj ->
    toLowerCase si = toLowerCase sj -> i = j.
Proof.
  unfold uniqueNames, lowerNames. induction votes as [|v votes IH]; simpl.
  - split; [| intros _; constructor].
    intros _ i j vi vj si sj Hi. rewrite lookup_nil in Hi. discriminate Hi.
  - assert (Hclash : forall (k : string) (j : nat) (vj : UserVote) (sj : string),
               votes !! j = Some vj -> userName vj = VStr sj -> toLowerCase sj = k ->
               k ∈ omap (fun x => lowerCase toLowerCase (userName x)) votes).
    { intros k j vj sj Hj Hsj Hlow. apply list_elem_of_omap. exists vj.
      split; [apply list_elem_of_lookup; eauto |]. rewrite Hsj. simpl. congruence. }
    destruct (lowerCase toLowerCase (userName v)) as [k|] eqn:Hk.
    + rewrite NoDup_cons, IH. split.
      * intros [Hnotin Hrest] i j vi vj si sj Hi Hj Hsi Hsj Heq.
        destruct i as [|i], j as [|j]; simpl in Hi, Hj.
        -- reflexivity.
        -- exfalso. injection Hi as <-. rewrite Hsi in Hk. injection Hk as <-.
           apply Hnotin. exact (Hclash _ j vj sj Hj Hsj (eq_sym Heq)).
        -- exfalso. injection Hj as <-. rewrite Hsj in Hk. injection Hk as <-.
           apply Hnotin. exact (Hclash _ i vi si Hi Hsi Heq).
        -- f_equal. exact (Hrest i j vi vj si sj Hi Hj Hsi Hsj Heq).
      * intros H. split.
        -- intros Hin. apply list_elem_of_omap in Hin as (x & Hx & Hfx).
           apply list_elem_of_lookup in Hx as [j Hj].
           destruct (userName v) as [| sv |] eqn:Ev; try discriminate Hk.
           destruct (userName x) as [| sx |] eqn:Ex; try discriminate Hfx.
           injection Hk as <-. injection Hfx as Hfx.
           specialize (H 0%nat (S j) v x sv sx eq_refl Hj Ev Ex (eq_sym Hfx)).
           discriminate H.
        -- intros i j vi vj si sj Hi Hj Hsi Hsj Heq.
           specialize (H (S i) (S j) vi vj si sj Hi Hj Hsi Hsj Heq).
           injection H as H. exact H.
    + rewrite IH. split.
      * intros H i j vi vj si sj Hi Hj Hsi Hsj Heq.
        destruct i as [|i], j as [|j]; simpl in Hi, Hj.
        -- reflexivity.
        -- injection Hi as <-. rewrite Hsi in Hk. discriminate Hk.
        -- injection Hj as <-. rewrite Hsj in Hk. discriminate Hk.
        -- f_equal. exact (H i j vi vj si sj Hi Hj Hsi Hsj Heq).
      * intros H i j vi vj si sj Hi Hj Hsi Hsj Heq.
        specialize (H (S i) (S j) vi vj si sj Hi Hj Hsi Hsj Heq).
        injection H as H. exact H.
Qed.

Lemma uniqueNames_delete (i : nat) (votes : list UserVote) :
  uniqueNames toLowerCase votes -> uniqueNames toLowerCase (delete i votes).
Proof.
  unfold uniqueNames, lowerNames. intros H.
  eapply sublist_NoDup; [exact H |].
  apply omap_sublist, sublist_delete.
Qed.

Lemma uniqueNames_push (name : JSValue) (id : string) (ds : list string)
    (votes : list UserVote) :
  uniqueNames toLowerCase votes ->
  Forall (fun v => sameUser toLowerCase name v = Some false) votes ->
  uniqueNames toLowerCase
    (votes ++ [ {| vote_id := id; userName := name; dates := ds |} ]).
Proof.
  unfold uniqueNames, lowerNames. intros Hu Hf.
  rewrite omap_app. simpl.
  destruct (lowerCase toLowerCase name) as [k|] eqn:Hk.
  - apply NoDup_app. split; [exact Hu | split; [| apply NoDup_singleton]].
    intros x Hx Hin. apply list_elem_of_singleton in Hin. subst x.
    apply list_elem_of_omap in Hx as (v & Hv & Hlow).
    rewrite Forall_forall in Hf. specialize (Hf v Hv).
    unfold sameUser in Hf. rewrite Hlow, Hk, String.eqb_refl in Hf.
    discriminate Hf.
  - rewrite app_nil_r. exact Hu.
Qed.

Lemma uniqueNames_submitted (name ds : JSValue) (t : Z) (r : option nat)
    (votes : list UserVote) :
  uniqueNames toLowerCase votes ->
  findIndex (sameUser toLowerCase name) votes = Some r ->
  uniqueNames toLowerCase (submitted name ds t r votes).
Proof.
  intros Hu Hf. destruct r as [i|]; simpl.
  - unfold uniqueNames. rewrite lowerNames_set_dates. exact Hu.
  - apply uniqueNames_push; [exact Hu | apply findIndex_none, Hf].
Qed.

End Uniqueness.

(** C4. Each of the four mutating handlers keeps the invariant that
    [userVotes] has at most one entry per case-insensitive [userName]:
    whatever the request carries and whether the store commands reject or
    not, if the stored document satisfies it before the request, the stored
    document satisfies it after. *)
Theorem mutations_keep_names_unique
    (toLowerCase : string -> string) (w : World) :
  invariant toLowerCase (store w) ->
  (forall name ds : JSValue,
     invariant toLowerCase (store (postUserDates toLowerCase name ds w).2)) /\
  (forall name : string,
     invariant toLowerCase (store (deleteUserDates toLowerCase name w).2)) /\
  (forall newDate : JSValue,
     invariant toLowerCase (store (postDate newDate w).2)) /\
  (forall optionIndex : Prim,
     invariant toLowerCase (store (postVote optionIndex w).2)).
Proof.
  intros Hinv. repeat split.
  - intros name ds.
    destruct (postUserDates_store toLowerCase name ds w _ eq_refl)
      as [-> | (poll & votes & r & Hs & Hv & Hf & ->)]; [exact Hinv |].
    intros poll' votes' [= <-] [= <-].
    apply uniqueNames_submitted; [exact (Hinv poll votes Hs Hv) | exact Hf].
  - intros name.
    destruct (deleteUserDates_store toLowerCase name w _ eq_refl)
      as [-> | (poll & votes & i & Hs & Hv & ->)]; [exact Hinv |].
    intros poll' votes' [= <-] [= <-].
    apply uniqueNames_delete. exact (Hinv poll votes Hs Hv).
  - intros newDate.
    destruct (postDate_store newDate w _ eq_refl)
      as [-> | (poll & os & Hs & ->)]; [exact Hinv |].
    intros poll' votes' [= <-] Hv. exact (Hinv poll votes' Hs Hv).
  - intros optionIndex.
    destruct (postVote_store optionIndex w _ eq_refl)
      as [-> | (poll & os & Hs & ->)]; [exact Hinv |].
    intros poll' votes' [= <-] Hv. exact (Hinv poll votes' Hs Hv).
Qed.

Lemma mutations_keep_names_unique_witness :
  invariant asciiToLowerCase
    (store (postUserDates asciiToLowerCase (VStr "Alice") (VArr ["2024-04-05"%string])
              {| store := Some initialData; now := 1712000000000; faults := [];
                 trace := [] |}).2).
Proof.
  apply (mutations_keep_names_unique asciiToLowerCase
           {| store := Some initialData; now := 1712000000000; faults := []; trace := [] |}).
  intros poll votes [= <-] [= <-]. constructor.
Defined.

(** *** The [dateCounts] object *)

Lemma own_assign_eq (k : string) (c : Count) (o : DateCounts) :
  own k (assign k c o) = Some c.
Proof.
  induction o as [|[k' c'] o IH]; simpl.
  - rewrite String.eqb_refl. reflexivity.
  - destruct (String.eqb k k') eqn:E; simpl; rewrite E; [reflexivity | exact IH].
Qed.

Lemma own_assign_ne (k k' : string) (c : Count) (o : DateCounts) :
  k <> k' -> own k (assign k' c o) = own k o.
Proof.
  intros Hne. induction o as [|[k'' c''] o IH]; simpl.
  - apply String.eqb_neq in Hne. rewrite Hne. reflexivity.
  - destruct (String.eqb k' k'') eqn:E; simpl.
    + apply String.eqb_eq in E. subst k''.
      apply String.eqb_neq in Hne. rewrite Hne. reflexivity.
    + rewrite IH. reflexivity.
Qed.

Lemma own_None_keys (k : string) (o : DateCounts) :
  own k o = None -> k ∉ map fst o.
Proof.
  induction o as [|[k' c'] o IH]; simpl; intros H.
  - apply not_elem_of_nil.
  - destruct (String.eqb k k') eqn:E; [discriminate H |].
    apply String.eqb_neq in E. apply not_elem_of_cons. split; [exact E | apply IH, H].
Qed.

Lemma keys_assign (k : string) (c : Count) (o : DateCounts) :
  map fst (assign k c o) =
  match own k o with
  | Some _ => map fst o
  | None => map fst o ++ [k]
  end.
Proof.
  induction o as [|[k' c'] o IH]; simpl.
  - reflexivity.
  - destruct (String.eqb k k') eqn:E; simpl.
    + reflexivity.
    + rewrite IH. destruct (own k o); reflexivity.
Qed.

Lemma NoDup_keys_assign (k : string) (c : Count) (o : DateCounts) :
  NoDup (map fst o) -> NoDup (map fst (assign k c o)).
Proof.
  intros H. rewrite keys_assign. destruct (own k o) eqn:E; [exact H |].
  apply NoDup_app. split; [exact H | split; [| apply NoDup_singleton]].
  intros x Hx Hin. apply list_elem_of_singleton in Hin. subst x.
  exact (own_None_keys k o E Hx).
Qed.

Lemma own_elem_of (k : string) (c : Count) (o : DateCounts) :
  NoDup (map fst o) -> (k, c) ∈ o -> own k o = Some c.
Proof.
  induction o as [|[k' c'] o IH]; simpl; intros Hnd Hin.
  - apply elem_of_nil in Hin. contradiction.
  - apply NoDup_cons in Hnd as [Hk' Hnd].
    apply elem_of_cons in Hin as [[= -> ->] | Hin].
    + rewrite String.eqb_refl. reflexivity.
    + destruct (String.eqb k k') eqn:E.
      * apply String.eqb_eq in E. subst k'. exfalso. apply Hk'.
        apply list_elem_of_fmap. exists (k, c). split; [reflexivity | exact Hin].
      * apply IH; assumption.
Qed.

Lemma counted_nil : counted [] [].
Proof. split; [constructor | reflexivity]. Qed.

Lemma counted_bump (ds : list string) (o : DateCounts) (d : string) :
  inherited d = false -> counted ds o -> counted (ds ++ [d]) (bump o d).
Proof.
  intros Hplain [Hnd Hown]. unfold bump. rewrite Hplain.
  pose proof (Hown d) as Hd. unfold expected in Hd.
  assert (Hcount : forall k,
             count_occ String.string_dec (ds ++ [d]) k =
             (count_occ String.string_dec ds k + if String.string_dec d k then 1 else 0)%nat).
  { intros k. rewrite count_occ_app. simpl. destruct (String.string_dec d k); reflexivity. }
  assert (Hstep : forall c,
             expected (ds ++ [d]) d = Some c ->
             counted (ds ++ [d]) (assign d c o)).
  { intros c Hc. split; [apply NoDup_keys_assign, Hnd |].
    intros k. destruct (String.string_dec k d) as [-> | Hne].
    - rewrite own_assign_eq. symmetry. exact Hc.
    - rewrite (own_assign_ne k d c o Hne), Hown. unfold expected.
      rewrite Hcount. destruct (String.string_dec d k); [congruence |].
      rewrite Nat.add_0_r. reflexivity. }
  destruct (count_occ String.string_dec ds d) as [|n] eqn:E; rewrite Hd; apply Hstep;
    unfold expected; rewrite Hcount, E; destruct (String.string_dec d d); try congruence.
  - reflexivity.
  - unfold orZeroPlusOne. simpl. rewrite Nat.add_1_r. reflexivity.
Qed.

Lemma counted_fold (ds' ds : list string) (o : DateCounts) :
  Forall (fun d => inherited d = false) ds' ->
  counted ds o -> counted (ds ++ ds') (fold_left bump ds' o).
Proof.
  revert ds o. induction ds' as [|d ds' IH]; intros ds o Hplain Hc; simpl.
  - rewrite app_nil_r. exact Hc.
  - apply Forall_cons in Hplain as [Hd Hplain].
    replace (ds ++ d :: ds') with ((ds ++ [d]) ++ ds') by (rewrite <- app_assoc; reflexivity).
    apply IH; [exact Hplain | apply counted_bump; assumption].
Qed.

(** The two nested loops visit [allDates votes] in order. *)
Lemma nested_loops (votes : list UserVote) (o : DateCounts) :
  fold_left (fun o vote => fold_left bump (dates vote) o) votes o =
  fold_left bump (allDates votes) o.
Proof.
  revert o. induction votes as [|v votes IH]; intros o; simpl.
  - reflexivity.
  - unfold allDates. simpl. rewrite fold_left_app. apply IH.
Qed.

Lemma countDates_counted (votes : list UserVote) :
  plainDates votes -> counted (allDates votes) (countDates votes).
Proof.
  intros H. unfold countDates. rewrite nested_loops.
  apply (counted_fold (allDates votes) [] [] H counted_nil).
Qed.

Lemma countDates_elem_of (votes : list UserVote) (k : string) (c : Count) :
  plainDates votes -> (k, c) ∈ countDates votes ->
  c = Num (occurrences k votes) /\ (0 < occurrences k votes)%nat.
Proof.
  intros Hplain Hin. destruct (countDates_counted votes Hplain) as [Hnd Hown].
  pose proof (own_elem_of k c _ Hnd Hin) as H. rewrite Hown in H.
  unfold expected in H. unfold occurrences.
  destruct (count_occ String.string_dec (allDates votes) k); [discriminate H |].
  injection H as <-. split; [reflexivity | lia].
Qed.

(** *** [Object.entries], [sort], [slice] *)

Lemma insertIndex_elem_of {A : Type} (e x : string * A) (l : list (string * A)) :
  x ∈ insertIndex e l <-> x = e \/ x ∈ l.
Proof.
  induction l as [|e' l IH]; simpl.
  - rewrite list_elem_of_singleton, elem_of_nil. tauto.
  - destruct (indexOf e <=? indexOf e')%N.
    + rewrite !elem_of_cons. tauto.
    + rewrite !elem_of_cons, IH. tauto.
Qed.

Lemma sortIndices_elem_of {A : Type} (x : string * A) (l : list (string * A)) :
  x ∈ sortIndices l <-> x ∈ l.
Proof.
  unfold sortIndices. induction l as [|e l IH]; simpl.
  - reflexivity.
  - rewrite insertIndex_elem_of, elem_of_cons, IH. reflexivity.
Qed.

(** [Object.entries] lists every own property, and nothing else. *)
Lemma entries_elem_of {A : Type} (x : string * A) (o : list (string * A)) :
  x ∈ entries o <-> x ∈ o.
Proof.
  unfold entries. rewrite elem_of_app, sortIndices_elem_of.
  rewrite !list_elem_of_In, !filter_In, <- !list_elem_of_In.
  destruct (isIndex x); simpl; intuition congruence.
Qed.

Lemma insertSorted_elem_of (x y : PopularDate) (l : list PopularDate) :
  y ∈ insertSorted x l <-> y = x \/ y ∈ l.
Proof.
  induction l as [|z l IH]; simpl.
  - rewrite list_elem_of_singleton, elem_of_nil. tauto.
  - destruct (SortCompare x z <=? 0).
    + rewrite !elem_of_cons. tauto.
    + rewrite !elem_of_cons, IH. tauto.
Qed.

Lemma stableSort_elem_of (y : PopularDate) (l : list PopularDate) :
  y ∈ stableSort l <-> y ∈ l.
Proof.
  unfold stableSort. induction l as [|x l IH]; simpl.
  - reflexivity.
  - rewrite insertSorted_elem_of, elem_of_cons, IH. reflexivity.
Qed.

Lemma SortCompare_numeric (a b : PopularDate) (na nb : nat) :
  count a = Num na -> count b = Num nb ->
  SortCompare a b = Z.of_nat nb - Z.of_nat na.
Proof. intros Ha Hb. unfold SortCompare, compareFn. rewrite Ha, Hb. reflexivity. Qed.

Lemma descending_trans (a b c : PopularDate) :
  descending a b -> descending b c -> descending a c.
Proof.
  intros (na & nb & Ha & Hb & Hab) (nb' & nc & Hb' & Hc & Hbc).
  rewrite Hb in Hb'. injection Hb' as <-.
  exists na, nc. repeat split; try assumption. lia.
Qed.

Lemma insertSorted_sorted (x : PopularDate) (l : list PopularDate) :
  numeric x -> Forall numeric l ->
  StronglySorted descending l -> StronglySorted descending (insertSorted x l).
Proof.
  intros [nx Hx] Hnum Hs. induction Hs as [|y l Hs IH Hy]; simpl.
  - repeat constructor.
  - apply Forall_cons in Hnum as [[ny Hny] Hnum].
    rewrite (SortCompare_numeric x y nx ny Hx Hny).
    destruct (Z.of_nat ny - Z.of_nat nx <=? 0) eqn:E.
    + apply Z.leb_le in E.
      assert (Hxy : descending x y).
      { exists nx, ny. repeat split; try assumption. lia. }
      constructor; [constructor; assumption |].
      constructor; [exact Hxy |].
      eapply Forall_impl; [exact Hy |]. intros z Hz.
      exact (descending_trans x y z Hxy Hz).
    + apply Z.leb_gt in E.
      constructor; [apply IH, Hnum |].
      apply Forall_forall. intros z Hz.
      apply insertSorted_elem_of in Hz as [-> | Hz].
      * exists ny, nx. repeat split; try assumption. lia.
      * rewrite Forall_forall in Hy. auto.
Qed.

(** With Number counts, the stable sort orders by descending count. *)
Lemma stableSort_sorted (l : list PopularDate) :
  Forall numeric l -> StronglySorted descending (stableSort l).
Proof.
  unfold stableSort. induction 1 as [|x l Hx Hl IH]; simpl.
  - constructor.
  - apply insertSorted_sorted; [exact Hx | | exact IH].
    apply Forall_forall. intros y Hy. apply (proj1 (stableSort_elem_of y l)) in Hy.
    rewrite Forall_forall in Hl. auto.
Qed.

(** With Number counts, [sort] is the stable sort, whatever the runtime. *)
Lemma sort_numeric (implementationOrder : list PopularDate -> list PopularDate)
    (l : list PopularDate) :
  Forall numeric l -> sort implementationOrder l = stableSort l.
Proof.
  intros H. unfold sort.
  replace (forallb isNumber l) with true; [reflexivity |].
  symmetry. apply forallb_forall. intros p Hp.
  rewrite Forall_forall in H. destruct (H p) as [n Hn].
  - apply list_elem_of_In, Hp.
  - unfold isNumber. rewrite Hn. reflexivity.
Qed.

Lemma take_sorted {A : Type} (R : A -> A -> Prop) (n : nat) (l : list A) :
  StronglySorted R l -> StronglySorted R (take n l).
Proof.
  intros H. rewrite <- (take_drop n l) in H.
  exact (StronglySorted_app_1_l R _ _ H).
Qed.

Lemma elem_of_take_list {A : Type} (x : A) (n : nat) (l : list A) :
  x ∈ take n l -> x ∈ l.
Proof.
  intros H. apply elem_of_take in H as (i & Hi & _).
  apply list_elem_of_lookup. eauto.
Qed.

Lemma entries_numeric (votes : list UserVote) :
  plainDates votes ->
  Forall numeric
    (map (fun e => {| date := e.1; count := e.2 |}) (entries (countDates votes))).
Proof.
  intros Hplain. apply Forall_forall. intros p Hp.
  apply list_elem_of_fmap in Hp as ([k c] & -> & Hp).
  apply (proj1 (entries_elem_of _ _)) in Hp.
  destruct (countDates_elem_of votes k c Hplain Hp) as [-> _].
  eexists. reflexivity.
Qed.

(** With plain dates, the popular dates are the first five of the stable
    sort, whatever the runtime. *)
Lemma popularDatesOf_plain (implementationOrder : list PopularDate -> list PopularDate)
    (votes : list UserVote) :
  plainDates votes ->
  popularDatesOf implementationOrder votes =
  take 5 (stableSort
            (map (fun e => {| date := e.1; count := e.2 |}) (entries (countDates votes)))).
Proof.
  intros Hplain. unfold popularDatesOf.
  rewrite (sort_numeric _ _ (entries_numeric votes Hplain)). reflexivity.
Qed.

(** What is in the popular dates is an own property of [dateCounts]. *)
Lemma popularDatesOf_elem_of (implementationOrder : list PopularDate -> list PopularDate)
    (votes : list UserVote) (p : PopularDate) :
  plainDates votes ->
  p ∈ popularDatesOf implementationOrder votes -> (date p, count p) ∈ countDates votes.
Proof.
  intros Hplain. rewrite (popularDatesOf_plain _ votes Hplain). intros H.
  apply elem_of_take_list in H. apply (proj1 (stableSort_elem_of _ _)) in H.
  apply list_elem_of_fmap in H as ([k c] & -> & H).
  apply (proj1 (entries_elem_of _ _)) in H. exact H.
Qed.

(** *** Occurrences and supporters *)

Lemma count_occ_NoDup (d : string) (l : list string) :
  NoDup l ->
  count_occ String.string_dec l d = if existsb (String.eqb d) l then 1%nat else 0%nat.
Proof.
  induction 1 as [|x l Hx Hl IH]; simpl.
  - reflexivity.
  - destruct (String.string_dec x d) as [-> | Hne].
    + rewrite String.eqb_refl. simpl. rewrite IH.
      destruct (existsb (String.eqb d) l) eqn:E; [| reflexivity].
      exfalso. apply Hx. apply existsb_exists in E as (y & Hy & Hd).
      apply String.eqb_eq in Hd. subst y. apply list_elem_of_In. exact Hy.
    + assert (E : String.eqb d x = false) by (apply String.eqb_neq; congruence).
      rewrite E. simpl. exact IH.
Qed.

(** Where no vote lists a date twice, the occurrences of a date are its
    supporters. *)
Lemma occurrences_supporters (d : string) (votes : list UserVote) :
  Forall (fun v => NoDup (dates v)) votes ->
  occurrences d votes = supporters d votes.
Proof.
  unfold occurrences, supporters, allDates.
  induction 1 as [|v votes Hv _ IH]; simpl.
  - reflexivity.
  - rewrite count_occ_app, IH, (count_occ_NoDup d (dates v) Hv).
    destruct (existsb (String.eqb d) (dates v)); reflexivity.
Qed.

(** *** GET /poll: the response *)

Lemma getPoll_found (implementationOrder : list PopularDate -> list PopularDate)
    (w : World) (poll : PollDocument) :
  rejects w = false -> store w = Some poll ->
  getPoll implementationOrder w =
  (Ok {| status := 200; body := PollBody poll (derivedField implementationOrder poll) |},
   issue RedisGet w).
Proof.
  intros Hr Hs. unfold getPoll, try_catch. rewrite bind_eq, (get_ok w Hr), Hs.
  reflexivity.
Qed.

Lemma derivedField_votes (implementationOrder : list PopularDate -> list PopularDate)
    (poll : PollDocument) (votes : list UserVote) :
  userVotes poll = Some votes -> votes <> [] ->
  derivedField implementationOrder poll = Some (popularDatesOf implementationOrder votes).
Proof.
  intros Hv Hne. unfold derivedField. rewrite Hv.
  destruct votes; [contradiction | reflexivity].
Qed.

(** C1, as the code has it.  With a store that answers and holds a document
    whose [userVotes] is not empty and whose dates are not names of
    [Object.prototype], GET /poll answers 200 with a [popularDates] list
    - of at most 5 entries,
    - sorted by descending count,
    - in which the count of a date is the number of times the date is listed
      over all votes, a date listed twice by one vote counting twice;
    - where no vote lists a date twice, that count is the number of votes
      that list the date. *)
Theorem popularDates_spec
    (implementationOrder : list PopularDate -> list PopularDate)
    (w : World) (poll : PollDocument) (votes : list UserVote) :
  rejects w = false -> store w = Some poll ->
  userVotes poll = Some votes -> votes <> [] -> plainDates votes ->
  exists popular,
    (getPoll implementationOrder w).1 =
      Ok {| status := 200; body := PollBody poll (Some popular) |} /\
    (length popular <= 5)%nat /\
    StronglySorted descending popular /\
    (forall p, p ∈ popular ->
       count p = Num (occurrences (date p) votes) /\
       (0 < occurrences (date p) votes)%nat) /\
    (Forall (fun v => NoDup (dates v)) votes ->
     forall p, p ∈ popular -> count p = Num (supporters (date p) votes)).
Proof.
  intros Hr Hs Hv Hne Hplain. exists (popularDatesOf implementationOrder votes).
  rewrite (getPoll_found implementationOrder w poll Hr Hs),
    (derivedField_votes implementationOrder poll votes Hv Hne).
  assert (Hcount : forall p, p ∈ popularDatesOf implementationOrder votes ->
             count p = Num (occurrences (date p) votes) /\
             (0 < occurrences (date p) votes)%nat).
  { intros p Hp. apply countDates_elem_of; [exact Hplain |].
    exact (popularDatesOf_elem_of implementationOrder votes p Hplain Hp). }
  split; [reflexivity |]. split; [| split; [| split]].
  - unfold popularDatesOf. rewrite length_take. lia.
  - rewrite (popularDatesOf_plain implementationOrder votes Hplain).
    apply take_sorted, stableSort_sorted, entries_numeric, Hplain.
  - exact Hcount.
  - intros Hnd p Hp. rewrite <- (occurrences_supporters (date p) votes Hnd).
    apply Hcount, Hp.
Qed.

Lemma popularDates_spec_witness :
  exists popular,
    (getPoll sampleOrder repeatedDateWorld).1 =
      Ok {| status := 200;
            body := PollBody
                      (set_userVotes
                         [ {| vote_id := "1712000000000"; userName := VStr "Ann";
                              dates := ["2024-04-05"; "2024-04-05"]%string |} ]
                         initialData)
                      (Some popular) |} /\
    (length popular <= 5)%nat.
Proof.
  destruct (popularDates_spec sampleOrder repeatedDateWorld
              (set_userVotes
                 [ {| vote_id := "1712000000000"; userName := VStr "Ann";
                      dates := ["2024-04-05"; "2024-04-05"]%string |} ]
                 initialData)
              [ {| vote_id := "1712000000000"; userName := VStr "Ann";
                   dates := ["2024-04-05"; "2024-04-05"]%string |} ])
    as (popular & H1 & H2 & _).
  - reflexivity.
  - reflexivity.
  - reflexivity.
  - discriminate.
  - repeat constructor.
  - exists popular. split; [exact H1 | exact H2].
Defined.

(** C1, as stated, fails.  After start-up and one submission by Ann that
    lists 2024-04-05 twice, GET /poll gives that date the count 2, and one
    vote lists it. *)
Lemma popularDates_counts_repeats :
  exists poll votes,
    store repeatedDateWorld = Some poll /\ userVotes poll = Some votes /\
    (getPoll sampleOrder repeatedDateWorld).1 =
      Ok {| status := 200;
            body := PollBody poll (Some [ {| date := "2024-04-05"; count := Num 2 |} ]) |} /\
    supporters "2024-04-05" votes = 1%nat /\
    Num 2 <> Num (supporters "2024-04-05" votes).
Proof.
  eexists _, _. split; [reflexivity |]. split; [reflexivity |].
  split; [reflexivity |]. split; [reflexivity |]. discriminate.
Qed.




(** ** The scenarios, run *)

Example get_on_empty_store :
  (getPoll sampleOrder emptyWorld).1 =
  Ok {| status := 404; body := ErrorBody "Poll not found in Redis." |}.
Proof. reflexivity. Qed.

Example get_after_startup :
  (getPoll sampleOrder seededWorld).1 =
  Ok {| status := 200; body := PollBody initialData None |}.
Proof. reflexivity. Qed.

Example alice_then_alice :
  store
    ((postUserDates asciiToLowerCase (VStr "Alice") (VArr ["2024-04-05"%string]) ;;;
      postUserDates asciiToLowerCase (VStr "alice") (VArr ["2024-04-12"%string]))
       seededWorld).2 =
  Some (set_userVotes
          [ {| vote_id := "1712000000000"; userName := VStr "Alice";
               dates := ["2024-04-12"%string] |} ]
          initialData).
Proof. reflexivity. Qed.

Example vote_99_of_3 :
  postVote (PNum 99) seededWorld =
  (Ok {| status := 400; body := ErrorBody "Invalid option index." |},
   issue RedisGet seededWorld).
Proof. reflexivity. Qed.

Example vote_1_of_3 :
  option_map options (store (postVote (PNum 1) seededWorld).2) =
  Some [ {| label := VStr "2024-04-05"; votes := 0 |};
         {| label := VStr "2024-04-12"; votes := 1 |};
         {| label := VStr "2024-04-19"; votes := 0 |} ].
Proof. reflexivity. Qed.

Example delete_bob_after_alice :
  (deleteUserDates asciiToLowerCase "BOB"
     (postUserDates asciiToLowerCase (VStr "Alice") (VArr ["2024-04-05"%string])
        seededWorld).2).1 =
  Ok {| status := 404; body := ErrorBody "User not found in the poll." |}.
Proof. reflexivity. Qed.

Example delete_ALICE_after_alice :
  option_map userVotes
    (store (deleteUserDates asciiToLowerCase "ALICE"
              (postUserDates asciiToLowerCase (VStr "Alice") (VArr ["2024-04-05"%string])
                 seededWorld).2).2) =
  Some (Some []).
Proof. reflexivity. Qed.

(** A failing [set] leaves the store as it was and is answered with 500. *)
Example set_rejected_on_submit :
  let w := {| store := Some initialData; now := 1712000000000;
              faults := [false; true]; trace := [] |} in
  (postUserDates asciiToLowerCase (VStr "Alice") (VArr ["2024-04-05"%string]) w).1 =
    Ok {| status := 500; body := ErrorBody "Server error submitting availability." |} /\
  store (postUserDates asciiToLowerCase (VStr "Alice") (VArr ["2024-04-05"%string]) w).2 =
    Some initialData.
Proof. split; reflexivity. Qed.

(** Array indices come first in [Object.entries], in ascending order; ties
    in the sort keep that order. *)
Example entries_order :
  popularDatesOf sampleOrder
    [ {| vote_id := "1"; userName := VStr "Ann"; dates := ["b"; "10"; "2"; "a"]%string |};
      {| vote_id := "2"; userName := VStr "Bob"; dates := ["a"; "c"; "d"]%string |} ] =
  [ {| date := "a"; count := Num 2 |}; {| date := "2"; count := Num 1 |};
    {| date := "10"; count := Num 1 |}; {| date := "b"; count := Num 1 |};
    {| date := "c"; count := Num 1 |} ].
Proof. reflexivity. Qed.

(** A date that is a name of [Object.prototype] gets a string, not a Number,
    and [__proto__] gets no property at all. *)
Example inherited_names :
  countDates
    [ {| vote_id := "1"; userName := VStr "Ann";
         dates := ["toString"; "__proto__"; "toString"]%string |} ] =
  [ ("toString"%string, Text) ].
Proof. reflexivity. Qed.

(** ** Further properties *)

(** Case analysis of one run of a handler, from [H : h w = (r, w')]. *)
Ltac run_handler H :=
  unfold postUserDates, deleteUserDates, postDate, postVote, getPoll,
    ensurePollExists, try_catch, bind, orTypeError in H;
  unfold redisClient_get, redisClient_set, io_emit, ret, Date_now, throw in H;
  repeat case_match; simplify_eq.

Ltac solve_untouched :=
  split;
  [ simpl; first [reflexivity | congruence]
  | simpl; rewrite <- ?app_assoc; simpl;
    first [ left; reflexivity
          | right; left; reflexivity
          | right; right; eexists; reflexivity ] ].

Ltac solve_all_or_nothing :=
  eexists; split; [reflexivity |]; simpl;
  first
    [ left; split; [reflexivity | eexists; reflexivity]
    | right; split;
      [ first [left; reflexivity | right; left; reflexivity | right; right; reflexivity]
      | solve_untouched ] ].

(** *** All or nothing *)

(** X1. Each of the four mutating handlers answers every request, whatever
    it carries and whether the store commands reject or not, and does one of
    two things: it reads, writes and broadcasts, in that order and once each,
    and answers 200; or it answers 400, 404 or 500, and then the store holds
    what it held and nothing was broadcast. *)
Theorem mutations_all_or_nothing (toLowerCase : string -> string) :
  (forall name ds : JSValue, allOrNothing (postUserDates toLowerCase name ds)) /\
  (forall name : string, allOrNothing (deleteUserDates toLowerCase name)) /\
  (forall newDate : JSValue, allOrNothing (postDate newDate)) /\
  (forall optionIndex : Prim, allOrNothing (postVote optionIndex)).
Proof.
  repeat split.
  - intros name ds w.
    destruct (postUserDates toLowerCase name ds w) as [r w'] eqn:H.
    run_handler H; solve_all_or_nothing.
  - intros name w.
    destruct (deleteUserDates toLowerCase name w) as [r w'] eqn:H.
    run_handler H; solve_all_or_nothing.
  - intros newDate w.
    destruct (postDate newDate w) as [r w'] eqn:H.
    run_handler H; solve_all_or_nothing.
  - intros optionIndex w.
    destruct (postVote optionIndex w) as [r w'] eqn:H.
    run_handler H; solve_all_or_nothing.
Qed.

(** *** Legacy: POST /poll/date *)

(** X2. POST /poll/date with a [newDate] that is missing, [null], [false],
    [0] or the empty string is answered with 400 before any store command.
    With any other [newDate], a store that answers and a stored [poll], it
    appends one option with that label and zero votes after the options
    there are, keeps everything else of [poll], writes, broadcasts and
    answers 200. *)
Theorem postDate_spec (newDate : JSValue) (w : World) (poll : PollDocument) :
  reliable w -> store w = Some poll ->
  (truthy newDate = false ->
     postDate newDate w =
     (Ok {| status := 400; body := ErrorBody "No date provided." |}, w)) /\
  (truthy newDate = true ->
     exists poll',
       (postDate newDate w).1 =
         Ok {| status := 200; body := MessageBody "Date added successfully." |} /\
       committed poll' w (postDate newDate w).2 /\
       options poll' = options poll ++ [ {| label := newDate; votes := 0 |} ] /\
       userVotes poll' = userVotes poll /\
       poll_id poll' = poll_id poll /\ title poll' = title poll).
Proof.
  intros Hr Hs. pose proof (reliable_rejects w Hr) as Hr0.
  pose proof (reliable_rejects _ (reliable_issue RedisGet w Hr)) as Hr1.
  split; intros Ht.
  - unfold postDate. rewrite Ht. reflexivity.
  - exists (set_options (options poll ++ [ {| label := newDate; votes := 0 |} ]) poll).
    unfold postDate, try_catch. rewrite Ht. cbn [negb].
    rewrite bind_eq, (get_ok w Hr0), Hs, bind_eq, (set_ok _ _ Hr1).
    repeat split.
Qed.

Lemma postDate_spec_witness :
  (postDate (VStr "2024-05-03") seededWorld).1 =
  Ok {| status := 200; body := MessageBody "Date added successfully." |}.
Proof.
  destruct (postDate_spec (VStr "2024-05-03") seededWorld initialData) as [_ H].
  - constructor.
  - reflexivity.
  - destruct (H eq_refl) as (poll' & H1 & _). exact H1.
Defined.

(** *** No poll under the key *)

(** X3. With a store that answers and holds nothing under the key, GET
    /poll and the four mutating routes, each with a request that passes its
    validation, answer 404 after the one [get]: nothing is written, nothing
    is broadcast, and no document is created.  POST /poll/vote does so for
    every [optionIndex], since it checks the index after the read. *)
Theorem absent_poll_not_found
    (toLowerCase : string -> string)
    (implementationOrder : list PopularDate -> list PopularDate) (w : World)
    (name ds newDate : JSValue) (user : string) (optionIndex : Prim) :
  rejects w = false -> store w = None ->
  invalidSubmission name ds = false -> user <> ""%string -> truthy newDate = true ->
  getPoll implementationOrder w =
    (Ok {| status := 404; body := ErrorBody "Poll not found in Redis." |}, issue RedisGet w) /\
  postUserDates toLowerCase name ds w =
    (Ok {| status := 404; body := ErrorBody "Poll not found." |}, issue RedisGet w) /\
  deleteUserDates toLowerCase user w =
    (Ok {| status := 404; body := ErrorBody "Poll not found." |}, issue RedisGet w) /\
  postDate newDate w =
    (Ok {| status := 404; body := ErrorBody "Poll not found." |}, issue RedisGet w) /\
  postVote optionIndex w =
    (Ok {| status := 404; body := ErrorBody "Poll not found." |}, issue RedisGet w) /\
  store (issue RedisGet w) = None.
Proof.
  intros Hr Hs Hv Hu Hd. apply String.eqb_neq in Hu.
  unfold getPoll, postUserDates, deleteUserDates, postDate, postVote, try_catch, truthy.
  rewrite Hv, Hu. destruct newDate as [[| | b | n] | s | l]; simpl in Hd;
    try discriminate Hd; rewrite ?Hd; cbn [negb];
    rewrite !bind_eq, (get_ok w Hr), Hs; simpl; rewrite Hs; repeat split.
Qed.

Lemma absent_poll_not_found_witness :
  postVote (PNum 0) emptyWorld =
  (Ok {| status := 404; body := ErrorBody "Poll not found." |}, issue RedisGet emptyWorld).
Proof.
  apply (absent_poll_not_found asciiToLowerCase sampleOrder emptyWorld
           (VStr "Ann") (VArr ["2024-04-05"%string]) (VStr "2024-05-03") "Ann" (PNum 0));
    first [reflexivity | discriminate].
Defined.

(** *** ensurePollExists: failures, and running it again *)

(** X4. [ensurePollExists] has no [catch]: for every world it either
    returns, and then the store holds a document that has [userVotes], or it
    throws the error of the store, and then the store holds what it held.
    It throws exactly when the [get] rejects, or the document is absent or
    lacks [userVotes] and the [set] rejects. *)
Theorem ensurePollExists_outcomes (w : World) :
  ((ensurePollExists w).1 = Ok tt /\
   (exists poll votes,
      store (ensurePollExists w).2 = Some poll /\ userVotes poll = Some votes) /\
   rejects w = false /\
   ((exists poll votes, store w = Some poll /\ userVotes poll = Some votes) \/
    rejects (issue RedisGet w) = false)) \/
  ((ensurePollExists w).1 = Thrown StoreError /\
   store (ensurePollExists w).2 = store w /\
   (rejects w = true \/
    (rejects (issue RedisGet w) = true /\
     (store w = None \/ exists poll, store w = Some poll /\ userVotes poll = None)))).
Proof.
  destruct (ensurePollExists w) as [r w'] eqn:H.
  run_handler H; simpl;
    first
      [ left; split; [reflexivity |];
        split; [eexists _, _; split; [first [reflexivity | eassumption] |
                                      first [reflexivity | eassumption]] |];
        split; [first [reflexivity | assumption] |];
        first [ left; eexists _, _; split; eassumption
              | right; assumption ]
      | right; split; [reflexivity | split; [first [reflexivity | congruence] |]];
        first [ left; first [assumption | reflexivity]
              | right; split; [assumption |];
                first [left; assumption | right; eexists; split; eassumption] ] ].
Qed.

(** X5. Once [ensurePollExists] has returned, running it again with a store
    that answers the [get] reads and writes nothing: the migration and the
    seeding happen once. *)
Theorem ensurePollExists_once (w w2 : World) :
  (ensurePollExists w).1 = Ok tt ->
  store w2 = store (ensurePollExists w).2 -> rejects w2 = false ->
  ensurePollExists w2 = (Ok tt, issue RedisGet w2).
Proof.
  intros Hok Hs Hr.
  assert (Hdoc : exists poll votes, store w2 = Some poll /\ userVotes poll = Some votes).
  { rewrite Hs. clear Hs. destruct (ensurePollExists w) as [r w'] eqn:H.
    simpl in Hok. subst r.
    run_handler H; simpl; eexists _, _;
      (split; [first [reflexivity | eassumption] | first [reflexivity | eassumption]]). }
  destruct Hdoc as (poll & votes & Hp & Hv).
  unfold ensurePollExists. rewrite bind_eq, (get_ok w2 Hr), Hp, Hv. reflexivity.
Qed.

Lemma ensurePollExists_once_witness :
  ensurePollExists seededWorld = (Ok tt, issue RedisGet seededWorld).
Proof.
  apply (ensurePollExists_once emptyWorld seededWorld); reflexivity.
Defined.

(** *** POST /poll/user-dates: which bodies are refused *)

Lemma invalidSubmission_iff (name ds : JSValue) :
  invalidSubmission name ds = true <->
  (name = VPrim PUndefined \/ name = VPrim PNull \/ name = VPrim (PBool false) \/
   name = VPrim (PNum 0) \/ name = VStr "" \/
   forall l, ds = VArr l -> l = []).
Proof.
  unfold invalidSubmission. split.
  - intros H.
    destruct name as [[| | [|] | n] | s | l]; simpl in H; auto 10.
    + destruct ds as [[| | [|] | m] | s | [|x l]]; simpl in H;
        try discriminate H; do 5 right; intros l' E; try discriminate E.
      injection E as <-. reflexivity.
    + destruct (Z.eqb_spec n 0) as [-> | Hn]; [auto 10 |].
      destruct ds as [[| | [|] | m] | s | [|x l]]; simpl in H;
        try discriminate H; do 5 right; intros l' E; try discriminate E.
      injection E as <-. reflexivity.
    + destruct (String.eqb_spec s "") as [-> | Hn]; [auto 10 |].
      destruct ds as [[| | [|] | m] | s' | [|x l]]; simpl in H;
        try discriminate H; do 5 right; intros l' E; try discriminate E.
      injection E as <-. reflexivity.
    + destruct ds as [[| | [|] | m] | s | [|x l']]; simpl in H;
        try discriminate H; do 5 right; intros l'' E; try discriminate E.
      injection E as <-. reflexivity.
  - intros [-> | [-> | [-> | [-> | [-> | H]]]]]; try reflexivity.
    destruct ds as [p | s | [|x l]].
    + simpl isArray. destruct (truthy name), (truthy (VPrim p)); reflexivity.
    + simpl isArray. destruct (truthy name), (truthy (VStr s)); reflexivity.
    + destruct (truthy name); reflexivity.
    + specialize (H (x :: l) eq_refl). discriminate H.
Qed.

(** X6. POST /poll/user-dates answers 400 exactly when [userName] is
    missing, [null], [false], [0] or the empty string, or [dates] is not an
    array with an element; no other path of the handler answers 400.  A
    [userName] that is a number other than 0, [true] or an array passes the
    validation. *)
Theorem postUserDates_refused_exactly
    (toLowerCase : string -> string) (name ds : JSValue) (w : World) (resp : Response) :
  (postUserDates toLowerCase name ds w).1 = Ok resp ->
  (status resp = 400%nat <->
   (name = VPrim PUndefined \/ name = VPrim PNull \/ name = VPrim (PBool false) \/
    name = VPrim (PNum 0) \/ name = VStr "" \/
    forall l, ds = VArr l -> l = [])).
Proof.
  rewrite <- invalidSubmission_iff. intros Hresp.
  destruct (postUserDates toLowerCase name ds w) as [r w'] eqn:H.
  simpl in Hresp. subst r.
  run_handler H; simpl; split; intros E; first [reflexivity | discriminate E | congruence].
Qed.

Lemma postUserDates_refused_exactly_witness :
  status {| status := 400;
            body := ErrorBody "Invalid submission. Please provide your name and at least one date." |}
  = 400%nat <->
  (VStr "" = VPrim PUndefined \/ VStr "" = VPrim PNull \/ VStr "" = VPrim (PBool false) \/
   VStr "" = VPrim (PNum 0) \/ VStr "" = VStr "" \/
   forall l, VArr ["2024-04-05"%string] = VArr l -> l = []).
Proof.
  apply (postUserDates_refused_exactly asciiToLowerCase (VStr "")
           (VArr ["2024-04-05"%string]) seededWorld).
  reflexivity.
Defined.

(** *** Legacy: POST /poll/vote with an index that is not a Number *)

(** X7. An [optionIndex] that is [undefined], [null] or a boolean never
    registers a vote: whatever the world, the store is unchanged and the
    answer is not 200.  With a stored [poll] and a [get] that answers,
    [null] and [false] compare as 0 and [true] as 1 in the guard, but name
    no element: the answer is 400 when the guard rejects them (no options
    for [null] and [false], at most one for [true]) and 500 otherwise. *)
Theorem postVote_index_not_a_number (k : Prim) (w : World) (poll : PollDocument) :
  (forall n, k <> PNum n) ->
  store (postVote k w).2 = store w /\
  (forall resp, (postVote k w).1 = Ok resp -> status resp <> 200%nat) /\
  (rejects w = false -> store w = Some poll ->
   (k = PNull \/ k = PBool false ->
      (postVote k w).1 =
      Ok (if (length (options poll) =? 0)%nat
          then {| status := 400; body := ErrorBody "Invalid option index." |}
          else {| status := 500; body := ErrorBody "Server error casting vote." |})) /\
   (k = PBool true ->
      (postVote k w).1 =
      Ok (if (length (options poll) <=? 1)%nat
          then {| status := 400; body := ErrorBody "Invalid option index." |}
          else {| status := 500; body := ErrorBody "Server error casting vote." |}))).
Proof.
  intros Hk.
  assert (Hslot : slot k = None).
  { destruct k as [| | b | n]; try reflexivity. exfalso. exact (Hk n eq_refl). }
  split; [| split].
  - destruct (postVote k w) as [r w'] eqn:H.
    unfold postVote, castVote in H. rewrite Hslot in H.
    run_handler H; simpl; first [reflexivity | congruence].
  - intros resp Hresp. destruct (postVote k w) as [r w'] eqn:H.
    unfold postVote, castVote in H. rewrite Hslot in H. simpl in Hresp. subst r.
    run_handler H; simpl; discriminate.
  - intros Hr Hs.
    assert (Hrun : postVote k w =
                   (Ok (if invalidIndex k poll
                        then {| status := 400; body := ErrorBody "Invalid option index." |}
                        else {| status := 500; body := ErrorBody "Server error casting vote." |}),
                    issue RedisGet w)).
    { unfold postVote, try_catch. rewrite bind_eq, (get_ok w Hr), Hs.
      destruct (invalidIndex k poll); [reflexivity |].
      rewrite bind_eq. unfold castVote. rewrite Hslot. reflexivity. }
    rewrite Hrun. simpl. split.
    + intros [-> | ->]; unfold invalidIndex; simpl;
        destruct (options poll); reflexivity.
    + intros ->. unfold invalidIndex. simpl.
      destruct (options poll) as [|o [|o' os]]; try reflexivity.
      simpl length.
      replace (Z.of_nat (S (S (length os))) <=? 1) with false; [reflexivity |].
      symmetry. apply Z.leb_gt. lia.
Qed.

Lemma postVote_index_not_a_number_witness :
  store (postVote (PBool true) seededWorld).2 = store seededWorld.
Proof.
  apply (postVote_index_not_a_number (PBool true) seededWorld initialData).
  discriminate.
Defined.

(** *** A document of the older shape *)

(** X8. On a stored document without [userVotes], a valid submission and a
    deletion both fail with 500 and change nothing, because [findIndex] is
    called on [undefined].  Once [ensurePollExists] has run, the same
    submission is answered 200 and leaves the one entry of that user. *)
Theorem older_shape_needs_startup
    (toLowerCase : string -> string) (u : string) (ds : list string)
    (w : World) (poll : PollDocument) :
  reliable w -> store w = Some poll -> userVotes poll = None ->
  u <> ""%string -> ds <> [] ->
  postUserDates toLowerCase (VStr u) (VArr ds) w =
    (Ok {| status := 500; body := ErrorBody "Server error submitting availability." |},
     issue RedisGet w) /\
  deleteUserDates toLowerCase u w =
    (Ok {| status := 500; body := ErrorBody "Server error deleting user dates." |},
     issue RedisGet w) /\
  (forall w2 : World,
     reliable w2 -> store w2 = store (ensurePollExists w).2 ->
     (postUserDates toLowerCase (VStr u) (VArr ds) w2).1 =
       Ok {| status := 200; body := MessageBody "Availability submitted successfully." |} /\
     store (postUserDates toLowerCase (VStr u) (VArr ds) w2).2 =
       Some (set_userVotes
               [ {| vote_id := pretty (now w2); userName := VStr u; dates := ds |} ] poll)).
Proof.
  intros Hr Hs Hv Hu Hd. pose proof (reliable_rejects w Hr) as Hr0.
  split; [| split].
  - unfold postUserDates, try_catch. rewrite (valid_submission u ds Hu Hd).
    rewrite bind_eq, (get_ok w Hr0), Hs, bind_eq, Hv. reflexivity.
  - unfold deleteUserDates, try_catch, truthy.
    apply String.eqb_neq in Hu. rewrite Hu. cbn [negb].
    rewrite bind_eq, (get_ok w Hr0), Hs, bind_eq, Hv. reflexivity.
  - intros w2 Hr2 Hs2.
    rewrite (ensurePollExists_older_shape w poll Hr Hs Hv) in Hs2. simpl in Hs2.
    rewrite (postUserDates_run toLowerCase (VStr u) (VArr ds) w2
               (set_userVotes [] poll) [] None Hr2 Hs2 eq_refl
               (valid_submission u ds Hu Hd) eq_refl).
    split; reflexivity.
Qed.

Lemma older_shape_needs_startup_witness :
  postUserDates asciiToLowerCase (VStr "Ann") (VArr ["2024-04-05"%string])
    {| store := Some {| poll_id := "p"; title := "t"; userVotes := None; options := [] |};
       now := 1712000000000; faults := []; trace := [] |} =
  (Ok {| status := 500; body := ErrorBody "Server error submitting availability." |},
   issue RedisGet
     {| store := Some {| poll_id := "p"; title := "t"; userVotes := None; options := [] |};
        now := 1712000000000; faults := []; trace := [] |}).
Proof.
  apply (older_shape_needs_startup asciiToLowerCase "Ann" ["2024-04-05"%string]
           {| store := Some {| poll_id := "p"; title := "t"; userVotes := None; options := [] |};
              now := 1712000000000; faults := []; trace := [] |}
           {| poll_id := "p"; title := "t"; userVotes := None; options := [] |});
    first [constructor | reflexivity | discriminate].
Defined.

(** *** Submissions and deletions, composed *)

Lemma set_userVotes_same (poll : PollDocument) (votes : list UserVote) :
  userVotes poll = Some votes -> set_userVotes votes poll = poll.
Proof. destruct poll. simpl. intros ->. reflexivity. Qed.

Lemma set_dates_same (v : UserVote) : set_dates (dates v) v = v.
Proof. destruct v. reflexivity. Qed.

Section Compositions.

Variable toLowerCase : string -> string.

Lemma belongsTo_same_lower (u u' : string) (v : UserVote) :
  toLowerCase u' = toLowerCase u ->
  belongsTo toLowerCase u' v <-> belongsTo toLowerCase u v.
Proof.
  intros E. unfold belongsTo. split; intros (s & Hs & Hl); exists s; split;
    congruence.
Qed.

(** The list a valid submission writes, seen from the entry of the user. *)
Lemma submitted_shape (u : string) (ds : list string) (t : Z) (votes : list UserVote) :
  namedByStrings votes ->
  exists r before v after,
    findIndex (sameUser toLowerCase (VStr u)) votes = Some r /\
    submitted (VStr u) (VArr ds) t r votes = before ++ v :: after /\
    Forall (fun x => ~ belongsTo toLowerCase u x) before /\
    belongsTo toLowerCase u v /\ dates v = ds /\
    namedByStrings (before ++ v :: after) /\
    (~ Exists (belongsTo toLowerCase u) votes ->
     before = votes /\ after = [] /\
     v = {| vote_id := pretty t; userName := VStr u; dates := ds |}).
Proof.
  intros Hn. destruct (first_entry toLowerCase u votes Hn) as [Hyes Hno].
  assert (Hdec : Exists (belongsTo toLowerCase u) votes \/
                 ~ Exists (belongsTo toLowerCase u) votes).
  { destruct (findIndex_split _ votes (sameUser_total toLowerCase u votes Hn))
      as [(before & v & after & E & _ & Hv) | Hall].
    - left. rewrite E. apply Exists_app. right. constructor.
      apply sameUser_true, Hv.
    - right. intros Hex. apply Exists_exists in Hex as (v & Hin & Hv).
      rewrite Forall_forall in Hall. specialize (Hall v Hin).
      apply sameUser_true in Hv. congruence. }
  destruct Hdec as [Hex | Hex].
  - destruct (Hyes Hex) as (before & v & after & -> & Hb & Hv & Hf).
    exists (Some (length before)), before, (set_dates ds v), after.
    unfold submitted. rewrite alter_first. simpl elements.
    refine (conj Hf (conj eq_refl (conj Hb (conj Hv (conj eq_refl (conj _ _)))))).
    + unfold namedByStrings in *. apply Forall_app in Hn as [Hn1 Hn2].
      apply Forall_cons in Hn2 as [Hn2 Hn3].
      apply Forall_app. split; [exact Hn1 |]. constructor; assumption.
    + intros H. contradiction.
  - exists None, votes, {| vote_id := pretty t; userName := VStr u; dates := ds |}, [].
    refine (conj (Hno Hex) (conj eq_refl (conj _ (conj _ (conj eq_refl (conj _ _)))))).
    + apply Forall_Exists_neg, Hex.
    + exists u. auto.
    + unfold namedByStrings. apply Forall_app. split; [exact Hn |].
      constructor; [eexists; reflexivity | constructor].
    + intros _. repeat split.
Qed.

(** Where [findIndex] stops for a name that differs in case only. *)
Lemma findIndex_entry (u' u : string) (before after : list UserVote) (v : UserVote) :
  toLowerCase u' = toLowerCase u ->
  namedByStrings (before ++ v :: after) ->
  Forall (fun x => ~ belongsTo toLowerCase u x) before ->
  belongsTo toLowerCase u v ->
  findIndex (sameUser toLowerCase (VStr u')) (before ++ v :: after) =
  Some (Some (length before)).
Proof.
  intros E Hn Hb Hv. apply findIndex_first.
  - apply Forall_app in Hn as [Hn _].
    apply Forall_forall. intros x Hx. apply sameUser_false.
    + rewrite Forall_forall in Hn. auto.
    + rewrite (belongsTo_same_lower u u' x E).
      rewrite Forall_forall in Hb. auto.
  - apply sameUser_true, (belongsTo_same_lower u u' v E), Hv.
Qed.

End Compositions.

Lemma unique_after (toLowerCase : string -> string) (name : string)
    (before after : list UserVote) (v : UserVote) :
  uniqueNames toLowerCase (before ++ v :: after) ->
  belongsTo toLowerCase name v ->
  Forall (fun x => ~ belongsTo toLowerCase name x) after.
Proof.
  unfold uniqueNames, lowerNames. intros Hu (s & Hs & Hl).
  rewrite omap_app in Hu. apply NoDup_app in Hu as (_ & _ & Hu).
  simpl in Hu. rewrite Hs in Hu. simpl in Hu.
  apply NoDup_cons in Hu as [Hnotin _].
  apply Forall_forall. intros x Hx (sx & Hsx & Hlx). apply Hnotin.
  apply list_elem_of_omap. exists x. split; [exact Hx |].
  rewrite Hsx. simpl. congruence.
Qed.



(** X10. A valid submission carried out a second time, under the same name
    or one that differs in case only and with the same dates, is answered
    200 and leaves the store as the first left it: no second entry, no
    change of identifier or of stored name. *)
Theorem submit_again_changes_nothing
    (toLowerCase : string -> string) (u u' : string) (ds : list string)
    (w w2 : World) (poll : PollDocument) (votes : list UserVote) :
  reliable w -> store w = Some poll -> userVotes poll = Some votes ->
  namedByStrings votes -> u <> ""%string -> ds <> [] ->
  u' <> ""%string -> toLowerCase u' = toLowerCase u ->
  reliable w2 ->
  store w2 = store (postUserDates toLowerCase (VStr u) (VArr ds) w).2 ->
  (postUserDates toLowerCase (VStr u') (VArr ds) w2).1 =
    Ok {| status := 200; body := MessageBody "Availability submitted successfully." |} /\
  store (postUserDates toLowerCase (VStr u') (VArr ds) w2).2 =
    store (postUserDates toLowerCase (VStr u) (VArr ds) w).2.
Proof.
  intros Hr Hs Hv Hn Hu Hd Hu' Hl Hr2 Hs2.
  destruct (submitted_shape toLowerCase u ds (now w) votes Hn)
    as (r & before & v & after & Hf & Hshape & Hb & Hbv & Hdv & Hn1 & _).
  rewrite (postUserDates_run toLowerCase _ _ w poll votes r Hr Hs Hv
             (valid_submission u ds Hu Hd) Hf) in Hs2 |- *.
  simpl in Hs2 |- *. rewrite Hshape in Hs2 |- *.
  rewrite (postUserDates_run toLowerCase _ _ w2 _ (before ++ v :: after)
             (Some (length before)) Hr2 Hs2 eq_refl (valid_submission u' ds Hu' Hd)
             (findIndex_entry toLowerCase u' u before after v Hl Hn1 Hb Hbv)).
  simpl. unfold submitted. rewrite alter_first. simpl elements.
  rewrite <- Hdv, set_dates_same. split; reflexivity.
Qed.

Lemma submit_again_changes_nothing_witness :
  store (postUserDates asciiToLowerCase (VStr "ANN") (VArr ["2024-04-05"%string])
           (postUserDates asciiToLowerCase (VStr "Ann") (VArr ["2024-04-05"%string])
              seededWorld).2).2 =
  store (postUserDates asciiToLowerCase (VStr "Ann") (VArr ["2024-04-05"%string])
           seededWorld).2.
Proof.
  apply (submit_again_changes_nothing asciiToLowerCase "Ann" "ANN" ["2024-04-05"%string]
           seededWorld _ initialData []);
    first [constructor | reflexivity | discriminate].
Defined.

(** X11. The submission of a user who has no entry, followed by the
    deletion of that user under a name of any case, both carried out, gives
    back the stored document exactly as it was before the submission. *)
Theorem submit_then_delete
    (toLowerCase : string -> string) (u u' : string) (ds : list string)
    (w w2 : World) (poll : PollDocument) (votes : list UserVote) :
  reliable w -> store w = Some poll -> userVotes poll = Some votes ->
  namedByStrings votes -> u <> ""%string -> ds <> [] ->
  ~ Exists (belongsTo toLowerCase u) votes ->
  u' <> ""%string -> toLowerCase u' = toLowerCase u ->
  reliable w2 ->
  store w2 = store (postUserDates toLowerCase (VStr u) (VArr ds) w).2 ->
  (deleteUserDates toLowerCase u' w2).1 =
    Ok {| status := 200; body := MessageBody "User dates successfully deleted." |} /\
  store (deleteUserDates toLowerCase u' w2).2 = Some poll.
Proof.
  intros Hr Hs Hv Hn Hu Hd Hnew Hu' Hl Hr2 Hs2.
  destruct (submitted_shape toLowerCase u ds (now w) votes Hn)
    as (r & before & v & after & Hf & Hshape & Hb & Hbv & Hdv & Hn1 & Hfresh).
  destruct (Hfresh Hnew) as (-> & -> & _).
  rewrite (postUserDates_run toLowerCase _ _ w poll votes r Hr Hs Hv
             (valid_submission u ds Hu Hd) Hf) in Hs2.
  simpl in Hs2. rewrite Hshape in Hs2.
  rewrite (deleteUserDates_found toLowerCase u' w2 _ (votes ++ [v]) (length votes)
             Hr2 Hs2 eq_refl Hu'
             (findIndex_entry toLowerCase u' u votes [] v Hl Hn1 Hb Hbv)).
  simpl. rewrite delete_middle, app_nil_r.
  split; [reflexivity |]. f_equal.
  destruct poll. simpl in *. subst. reflexivity.
Qed.

Lemma submit_then_delete_witness :
  store (deleteUserDates asciiToLowerCase "ANN"
           (postUserDates asciiToLowerCase (VStr "Ann") (VArr ["2024-04-05"%string])
              seededWorld).2).2 =
  Some initialData.
Proof.
  apply (submit_then_delete asciiToLowerCase "Ann" "ANN" ["2024-04-05"%string]
           seededWorld _ initialData []);
    first [constructor | reflexivity | discriminate | (intros H; inversion H)].
Defined.

(** X12. On a document whose names are strings and unique, a deletion
    carried out leaves no entry of that user and one entry less; deleting
    the same user again, with a store that answers, is answered 404 and
    changes nothing. *)
Theorem delete_removes_user
    (toLowerCase : string -> string) (name : string)
    (w : World) (poll : PollDocument) (votes : list UserVote) :
  reliable w -> store w = Some poll -> userVotes poll = Some votes ->
  namedByStrings votes -> uniqueNames toLowerCase votes ->
  name <> ""%string -> Exists (belongsTo toLowerCase name) votes ->
  exists votes1,
    store (deleteUserDates toLowerCase name w).2 = Some (set_userVotes votes1 poll) /\
    length votes = S (length votes1) /\
    ~ Exists (belongsTo toLowerCase name) votes1 /\
    forall w2 : World,
      rejects w2 = false ->
      store w2 = store (deleteUserDates toLowerCase name w).2 ->
      deleteUserDates toLowerCase name w2 =
      (Ok {| status := 404; body := ErrorBody "User not found in the poll." |},
       issue RedisGet w2).
Proof.
  intros Hr Hs Hv Hn Huniq Hname Hex.
  destruct (first_entry toLowerCase name votes Hn) as [Hyes _].
  destruct (Hyes Hex) as (before & v & after & -> & Hb & Hbv & Hf).
  pose proof (unique_after toLowerCase name before after v Huniq Hbv) as Ha.
  assert (Hgone : ~ Exists (belongsTo toLowerCase name) (before ++ after)).
  { apply Forall_Exists_neg, Forall_app. split; assumption. }
  assert (Hn1 : namedByStrings (before ++ after)).
  { unfold namedByStrings in *. apply Forall_app in Hn as [Hn1 Hn2].
    apply Forall_cons in Hn2 as [_ Hn3]. apply Forall_app. split; assumption. }
  exists (before ++ after).
  rewrite (deleteUserDates_found toLowerCase name w poll _ _ Hr Hs Hv Hname Hf).
  simpl. rewrite delete_middle.
  split; [reflexivity |]. split; [rewrite !length_app; simpl; lia |].
  split; [exact Hgone |].
  intros w2 Hr2 Hs2.
  destruct (first_entry toLowerCase name (before ++ after) Hn1) as [_ Hno].
  exact (deleteUserDates_not_found toLowerCase name w2 _ (before ++ after)
           Hr2 Hs2 eq_refl Hname (Hno Hgone)).
Qed.

Lemma delete_removes_user_witness :
  exists votes1,
    store (deleteUserDates asciiToLowerCase "ANN" repeatedDateWorld).2 =
      Some (set_userVotes votes1
              (set_userVotes
                 [ {| vote_id := "1712000000000"; userName := VStr "Ann";
                      dates := ["2024-04-05"; "2024-04-05"]%string |} ] initialData)) /\
    1%nat = S (length votes1).
Proof.
  destruct (delete_removes_user asciiToLowerCase "ANN" repeatedDateWorld
              (set_userVotes
                 [ {| vote_id := "1712000000000"; userName := VStr "Ann";
                      dates := ["2024-04-05"; "2024-04-05"]%string |} ] initialData)
              [ {| vote_id := "1712000000000"; userName := VStr "Ann";
                   dates := ["2024-04-05"; "2024-04-05"]%string |} ])
    as (votes1 & H1 & H2 & _).
  - constructor.
  - reflexivity.
  - reflexivity.
  - repeat constructor. eexists. reflexivity.
  - unfold uniqueNames, lowerNames. simpl. apply NoDup_singleton.
  - discriminate.
  - constructor. exists "Ann"%string. split; reflexivity.
  - exists votes1. split; [exact H1 | exact H2].
Defined.

(** *** What one operation does to the document *)

Lemma oneStep_refl (os : list LegacyOption) : oneStep os os.
Proof.
  split; [lia |]. split.
  - intros i o H. exists o. split; [exact H |]. split; [reflexivity |].
    intros Hb. split; [lia | exact Hb].
  - intros i o' H1 H2. congruence.
Qed.

Lemma oneStep_push (os : list LegacyOption) (l : JSValue) :
  oneStep os (os ++ [ {| label := l; votes := 0 |} ]).
Proof.
  split; [rewrite length_app; simpl; lia |]. split.
  - intros i o H. exists o. rewrite (lookup_app_l_Some _ _ _ _ H).
    split; [reflexivity |]. split; [reflexivity |].
    intros Hb. split; [lia | exact Hb].
  - intros i o' H1 H2. apply lookup_ge_None in H1.
    rewrite lookup_app_r in H2 by exact H1.
    destruct (i - length os)%nat as [|j]; simpl in H2; [| discriminate H2].
    injection H2 as <-. reflexivity.
Qed.

Lemma oneStep_vote (os : list LegacyOption) (i : nat) (o : LegacyOption) :
  os !! i = Some o -> oneStep os (<[i := incr_votes o]> os).
Proof.
  intros Hi. split; [rewrite length_insert; lia |]. split.
  - intros j o' Hj. destruct (decide (i = j)) as [<- | Hne].
    + exists (incr_votes o). rewrite list_lookup_insert_eq
        by (apply lookup_lt_is_Some; eauto).
      rewrite Hi in Hj. injection Hj as <-. simpl.
      split; [reflexivity |]. split; [reflexivity |].
      intros Hb. destruct (incr_in_range (votes o) Hb) as [[H1 H2] H3].
      split; [split; [exact H1 | exact H2] | exact H3].
    + exists o'. rewrite list_lookup_insert_ne by exact Hne.
      split; [exact Hj |]. split; [reflexivity |].
      intros Hb. split; [lia | exact Hb].
  - intros j o' H1 H2. apply lookup_ge_None in H1.
    apply lookup_lt_Some in H2. rewrite length_insert in H2. lia.
Qed.

Ltac use_slot :=
  repeat match goal with
  | Hs : slot ?k = Some _, He : element _ ?k = Some _ |- _ =>
      unfold element in He; rewrite Hs in He
  end.

Ltac solve_document :=
  simpl; intros E; simplify_eq; use_slot;
  first
    [ left; split; [assumption | reflexivity]
    | right; eexists; split; [eassumption |];
      split; [reflexivity |]; split; [reflexivity |];
      first [ apply oneStep_refl | apply oneStep_push | apply oneStep_vote; assumption ] ].

(** The document an operation leaves is [initialData] on an empty store, or
    the one before with its identifier and title and its options one step
    on. *)
Lemma perform_document (toLowerCase : string -> string)
    (implementationOrder : list PopularDate -> list PopularDate) (op : Operation)
    (w : World) (poll' : PollDocument) :
  store (perform toLowerCase implementationOrder op w) = Some poll' ->
  (store w = None /\ poll' = initialData) \/
  exists poll,
    store w = Some poll /\
    poll_id poll' = poll_id poll /\ title poll' = title poll /\
    oneStep (options poll) (options poll').
Proof.
  destruct op as [| | name ds | name | newDate | k]; unfold perform.
  - destruct (ensurePollExists w) as [r w'] eqn:H. run_handler H; solve_document.
  - destruct (getPoll implementationOrder w) as [r w'] eqn:H.
    run_handler H; solve_document.
  - destruct (postUserDates toLowerCase name ds w) as [r w'] eqn:H.
    run_handler H; solve_document.
  - destruct (deleteUserDates toLowerCase name w) as [r w'] eqn:H.
    run_handler H; solve_document.
  - destruct (postDate newDate w) as [r w'] eqn:H. run_handler H; solve_document.
  - destruct (postVote k w) as [r w'] eqn:H. unfold postVote, castVote in H.
    run_handler H; solve_document.
Qed.

Lemma perform_keeps (toLowerCase : string -> string)
    (implementationOrder : list PopularDate -> list PopularDate) (op : Operation)
    (w : World) (poll : PollDocument) :
  store w = Some poll ->
  exists poll', store (perform toLowerCase implementationOrder op w) = Some poll'.
Proof.
  intros Hs. destruct op as [| | name ds | name | newDate | k]; unfold perform.
  - destruct (ensurePollExists w) as [r w'] eqn:H.
    run_handler H; simpl; eauto.
  - destruct (getPoll implementationOrder w) as [r w'] eqn:H.
    run_handler H; simpl; eauto.
  - destruct (postUserDates toLowerCase name ds w) as [r w'] eqn:H.
    run_handler H; simpl; eauto.
  - destruct (deleteUserDates toLowerCase name w) as [r w'] eqn:H.
    run_handler H; simpl; eauto.
  - destruct (postDate newDate w) as [r w'] eqn:H. run_handler H; simpl; eauto.
  - destruct (postVote k w) as [r w'] eqn:H. run_handler H; simpl; eauto.
Qed.

(** X13. Whatever the operation, its input, the order the runtime sorts in
    and the answers of the store, a stored document stays stored, with the
    identifier and the title it had; no option is removed or relabelled, at
    most one option is added, with zero votes, and the votes of an option
    that are at most 2^53 in size stay or go up by one and are at most 2^53
    in size afterwards. *)
Theorem document_one_step
    (toLowerCase : string -> string)
    (implementationOrder : list PopularDate -> list PopularDate)
    (op : Operation) (w : World) (poll : PollDocument) :
  store w = Some poll ->
  exists poll',
    store (perform toLowerCase implementationOrder op w) = Some poll' /\
    poll_id poll' = poll_id poll /\ title poll' = title poll /\
    oneStep (options poll) (options poll').
Proof.
  intros Hs.
  destruct (perform_keeps toLowerCase implementationOrder op w poll Hs) as [poll' H'].
  exists poll'. split; [exact H' |].
  destruct (perform_document toLowerCase implementationOrder op w poll' H')
    as [[Hnone _] | (poll0 & Hs0 & Hid & Ht & Hstep)]; [congruence |].
  rewrite Hs in Hs0. injection Hs0 as <-. auto.
Qed.

Lemma document_one_step_witness :
  exists poll',
    store (perform asciiToLowerCase sampleOrder (PostVote (PNum 1)) seededWorld) =
      Some poll' /\
    poll_id poll' = poll_id initialData /\ title poll' = title initialData /\
    oneStep (options initialData) (options poll').
Proof.
  apply (document_one_step asciiToLowerCase sampleOrder (PostVote (PNum 1))
           seededWorld initialData).
  reflexivity.
Defined.

(** *** The two votings do not touch each other *)

Lemma legacy_keeps_userVotes (w : World) (poll' : PollDocument) :
  (forall newDate, store (postDate newDate w).2 = Some poll' ->
     exists poll, store w = Some poll /\ userVotes poll' = userVotes poll) /\
  (forall k, store (postVote k w).2 = Some poll' ->
     exists poll, store w = Some poll /\ userVotes poll' = userVotes poll).
Proof.
  split.
  - intros newDate H.
    destruct (postDate_store newDate w _ H) as [E | (poll & os & Hs & E)].
    + exists poll'. split; [symmetry; exact E | reflexivity].
    + injection E as ->. exists poll. split; [exact Hs | reflexivity].
  - intros k H.
    destruct (postVote_store k w _ H) as [E | (poll & os & Hs & E)].
    + exists poll'. split; [symmetry; exact E | reflexivity].
    + injection E as ->. exists poll. split; [exact Hs | reflexivity].
Qed.

(** X14. The legacy routes and the availability routes work on different
    parts of the document.  Whatever the request and the answers of the
    store, after POST /poll/date or POST /poll/vote the stored [userVotes],
    and with it the [popularDates] a GET computes, are what they were; after
    POST /poll/user-dates or DELETE /poll/user-dates/:userName the stored
    options, votes included, are what they were. *)
Theorem votings_are_independent
    (toLowerCase : string -> string)
    (implementationOrder : list PopularDate -> list PopularDate)
    (w : World) (poll' : PollDocument) :
  (forall newDate, store (postDate newDate w).2 = Some poll' ->
     exists poll, store w = Some poll /\
       userVotes poll' = userVotes poll /\
       derivedField implementationOrder poll' = derivedField implementationOrder poll) /\
  (forall k, store (postVote k w).2 = Some poll' ->
     exists poll, store w = Some poll /\
       userVotes poll' = userVotes poll /\
       derivedField implementationOrder poll' = derivedField implementationOrder poll) /\
  (forall name ds, store (postUserDates toLowerCase name ds w).2 = Some poll' ->
     exists poll, store w = Some poll /\ options poll' = options poll) /\
  (forall name, store (deleteUserDates toLowerCase name w).2 = Some poll' ->
     exists poll, store w = Some poll /\ options poll' = options poll).
Proof.
  destruct (legacy_keeps_userVotes w poll') as [Hdate Hvote].
  split; [| split; [| split]].
  - intros newDate H. destruct (Hdate newDate H) as (poll & Hs & Hv).
    exists poll. unfold derivedField. rewrite Hv. auto.
  - intros k H. destruct (Hvote k H) as (poll & Hs & Hv).
    exists poll. unfold derivedField. rewrite Hv. auto.
  - intros name ds H.
    destruct (postUserDates_store toLowerCase name ds w _ H)
      as [E | (poll & votes & r & Hs & _ & _ & E)].
    + exists poll'. split; [symmetry; exact E | reflexivity].
    + injection E as ->. exists poll. split; [exact Hs | reflexivity].
  - intros name H.
    destruct (deleteUserDates_store toLowerCase name w _ H)
      as [E | (poll & votes & i & Hs & _ & E)].
    + exists poll'. split; [symmetry; exact E | reflexivity].
    + injection E as ->. exists poll. split; [exact Hs | reflexivity].
Qed.

(** *** A [userName] that is not a string *)

Lemma lowerCase_not_string (toLowerCase : string -> string) (name : JSValue) :
  (forall s, name <> VStr s) -> lowerCase toLowerCase name = None.
Proof.
  intros H. destruct name as [p | s | l]; try reflexivity.
  exfalso. exact (H s eq_refl).
Qed.

(** X15. A submission whose [userName] is a number other than 0, [true] or
    an array passes the validation.  On a document with no entry it is
    carried out: the entry is stored with that [userName].  From then on,
    every submission that passes the validation and every deletion fails
    with 500 and changes nothing, because [toLowerCase] is called on the
    stored [userName]. *)
Theorem non_string_name_blocks
    (toLowerCase : string -> string) (name : JSValue) (l : list string)
    (w : World) (poll : PollDocument) :
  reliable w -> store w = Some poll -> userVotes poll = Some [] ->
  truthy name = true -> (forall s, name <> VStr s) -> l <> [] ->
  (postUserDates toLowerCase name (VArr l) w).1 =
    Ok {| status := 200; body := MessageBody "Availability submitted successfully." |} /\
  store (postUserDates toLowerCase name (VArr l) w).2 =
    Some (set_userVotes
            [ {| vote_id := pretty (now w); userName := name; dates := l |} ] poll) /\
  forall w2 : World,
    rejects w2 = false ->
    store w2 = store (postUserDates toLowerCase name (VArr l) w).2 ->
    (forall name' ds',
       invalidSubmission name' ds' = false ->
       postUserDates toLowerCase name' ds' w2 =
       (Ok {| status := 500; body := ErrorBody "Server error submitting availability." |},
        issue RedisGet w2)) /\
    (forall user,
       user <> ""%string ->
       deleteUserDates toLowerCase user w2 =
       (Ok {| status := 500; body := ErrorBody "Server error deleting user dates." |},
        issue RedisGet w2)).
Proof.
  intros Hr Hs Hv Ht Hns Hl.
  assert (Hvalid : invalidSubmission name (VArr l) = false).
  { unfold invalidSubmission. rewrite Ht. destruct l; [contradiction | reflexivity]. }
  rewrite (postUserDates_run toLowerCase name (VArr l) w poll [] None Hr Hs Hv Hvalid eq_refl).
  simpl. split; [reflexivity |]. split; [reflexivity |].
  intros w2 Hr2 Hs2.
  assert (Hthrow : forall name',
             findIndex (sameUser toLowerCase name')
               [ {| vote_id := pretty (now w); userName := name; dates := l |} ] = None).
  { intros name'. simpl. unfold sameUser. simpl.
    rewrite (lowerCase_not_string toLowerCase name Hns). reflexivity. }
  split.
  - intros name' ds' Hvalid'. unfold postUserDates, try_catch. rewrite Hvalid'.
    rewrite bind_eq, (get_ok w2 Hr2), Hs2, bind_eq. simpl orTypeError.
    unfold ret at 1. cbv iota beta. rewrite bind_eq, Hthrow. reflexivity.
  - intros user Hu. unfold deleteUserDates, try_catch, truthy.
    apply String.eqb_neq in Hu. rewrite Hu. cbn [negb].
    rewrite bind_eq, (get_ok w2 Hr2), Hs2, bind_eq. simpl orTypeError.
    unfold ret at 1. cbv iota beta. rewrite bind_eq, Hthrow. reflexivity.
Qed.

Lemma non_string_name_blocks_witness :
  store (postUserDates asciiToLowerCase (VPrim (PNum 5)) (VArr ["2024-04-05"%string])
           seededWorld).2 =
  Some (set_userVotes
          [ {| vote_id := "1712000000000"; userName := VPrim (PNum 5);
               dates := ["2024-04-05"%string] |} ] initialData).
Proof.
  apply (non_string_name_blocks asciiToLowerCase (VPrim (PNum 5)) ["2024-04-05"%string]
           seededWorld initialData);
    first [constructor | reflexivity | discriminate].
Defined.

(** *** Every document the service can produce *)

Lemma oneStep_extends (a b c : list LegacyOption) :
  extends a b -> Forall (fun o => 0 <= votes o <= 2 ^ 53) b -> oneStep b c ->
  extends a c.
Proof.
  intros Hab Hb (_ & Hbc & _) i o Hi.
  destruct (Hab i o Hi) as (o1 & H1 & Hl1 & Hv1).
  destruct (Hbc i o1 H1) as (o2 & H2 & Hl2 & Hv2).
  rewrite Forall_lookup in Hb. specialize (Hb _ _ H1). simpl in Hb.
  assert (Hsize : Z.abs (votes o1) <= 2 ^ 53) by lia.
  destruct (Hv2 Hsize) as [Hup _].
  exists o2. repeat split; [exact H2 | congruence | lia].
Qed.

Lemma oneStep_votes (b c : list LegacyOption) :
  Forall (fun o => 0 <= votes o <= 2 ^ 53) b -> oneStep b c ->
  Forall (fun o => 0 <= votes o <= 2 ^ 53) c.
Proof.
  intros Hb (_ & Hold & Hnew). apply Forall_lookup. intros i o' Hi.
  destruct (b !! i) as [o|] eqn:E.
  - destruct (Hold i o E) as (o2 & H2 & _ & Hv). rewrite Hi in H2.
    injection H2 as <-. rewrite Forall_lookup in Hb. specialize (Hb i o E).
    simpl in Hb.
    assert (Hsize : Z.abs (votes o) <= 2 ^ 53) by lia.
    destruct (Hv Hsize) as [Hup Hsize']. lia.
  - rewrite (Hnew i o' E Hi). lia.
Qed.

Lemma wellFormed_initialData (toLowerCase : string -> string) :
  wellFormed toLowerCase initialData.
Proof.
  repeat split.
  - exists []. split; [reflexivity | constructor].
  - intros i o H. exists o. repeat split; [exact H | lia].
  - repeat constructor; simpl; lia.
Qed.

(** The entries after an operation are there and have unique names, if they
    were and had before. *)
Lemma perform_userVotes (toLowerCase : string -> string)
    (implementationOrder : list PopularDate -> list PopularDate) (op : Operation)
    (w : World) (poll poll' : PollDocument) (votes : list UserVote) :
  store w = Some poll -> userVotes poll = Some votes -> uniqueNames toLowerCase votes ->
  store (perform toLowerCase implementationOrder op w) = Some poll' ->
  exists votes', userVotes poll' = Some votes' /\ uniqueNames toLowerCase votes'.
Proof.
  intros Hs Hv Hu H'.
  assert (Hsame : store (perform toLowerCase implementationOrder op w) = store w ->
                  exists votes', userVotes poll' = Some votes' /\
                                 uniqueNames toLowerCase votes').
  { intros E. rewrite E, Hs in H'. injection H' as <-. eauto. }
  destruct op as [| | name ds | name | newDate | k]; unfold perform in *.
  - apply Hsame. destruct (ensurePollExists w) as [r w'] eqn:H.
    run_handler H; simpl; congruence.
  - apply Hsame. destruct (getPoll implementationOrder w) as [r w'] eqn:H.
    run_handler H; simpl; congruence.
  - destruct (postUserDates_store toLowerCase name ds w _ H')
      as [E | (poll0 & votes0 & r & Hs0 & Hv0 & Hf & E)].
    + apply Hsame. congruence.
    + injection E as ->. rewrite Hs in Hs0. injection Hs0 as <-.
      rewrite Hv in Hv0. injection Hv0 as <-.
      eexists. split; [reflexivity |]. apply uniqueNames_submitted; assumption.
  - destruct (deleteUserDates_store toLowerCase name w _ H')
      as [E | (poll0 & votes0 & i & Hs0 & Hv0 & E)].
    + apply Hsame. congruence.
    + injection E as ->. rewrite Hs in Hs0. injection Hs0 as <-.
      rewrite Hv in Hv0. injection Hv0 as <-.
      eexists. split; [reflexivity |]. apply uniqueNames_delete; assumption.
  - destruct (postDate_store newDate w _ H') as [E | (poll0 & os & Hs0 & E)].
    + apply Hsame. congruence.
    + injection E as ->. rewrite Hs in Hs0. injection Hs0 as <-. simpl. eauto.
  - destruct (postVote_store k w _ H') as [E | (poll0 & os & Hs0 & E)].
    + apply Hsame. congruence.
    + injection E as ->. rewrite Hs in Hs0. injection Hs0 as <-. simpl. eauto.
Qed.

(** X16. Start from an empty store and run the initializer and the routes
    in any order, with any requests, any clock and any failures of the
    store.  Every document the store ever holds has the fixed identifier and
    title, has [userVotes], with at most one entry per case-insensitive
    name, keeps the three seeded options at their places with their labels
    and at least their votes, and every option has between 0 and 2^53
    votes. *)
Theorem reachable_documents
    (toLowerCase : string -> string)
    (implementationOrder : list PopularDate -> list PopularDate)
    (s : option PollDocument) (poll : PollDocument) :
  reachable toLowerCase implementationOrder s -> s = Some poll ->
  wellFormed toLowerCase poll.
Proof.
  intros Hreach. revert poll.
  induction Hreach as [| op w Hreach IH]; intros poll' H'; [discriminate H' |].
  destruct (perform_document toLowerCase implementationOrder op w poll' H')
    as [[_ ->] | (poll & Hs & Hid & Ht & Hstep)];
    [apply wellFormed_initialData |].
  destruct (IH poll Hs) as (Hid0 & Ht0 & (votes & Hv & Hu) & Hext & Hpos).
  split; [congruence |]. split; [congruence |].
  split; [exact (perform_userVotes toLowerCase implementationOrder op w poll poll'
                   votes Hs Hv Hu H') |].
  split; [exact (oneStep_extends _ _ _ Hext Hpos Hstep)
         | exact (oneStep_votes _ _ Hpos Hstep)].
Qed.

Lemma reachable_documents_witness :
  wellFormed asciiToLowerCase
    (set_userVotes
       [ {| vote_id := "1712000000000"; userName := VStr "Ann";
            dates := ["2024-04-05"; "2024-04-05"]%string |} ] initialData).
Proof.
  apply (reachable_documents asciiToLowerCase sampleOrder (store repeatedDateWorld)).
  - apply (reachable_step asciiToLowerCase sampleOrder
             (PostUserDates (VStr "Ann") (VArr ["2024-04-05"; "2024-04-05"]%string))
             seededWorld).
    apply (reachable_step asciiToLowerCase sampleOrder Startup emptyWorld).
    apply reachable_empty.
  - reflexivity.
Defined.

(** *** The popular dates, whatever the dates are *)

Lemma count_occ_snoc (ds : list string) (d k : string) :
  count_occ String.string_dec (ds ++ [d]) k =
  (count_occ String.string_dec ds k + if String.string_dec d k then 1 else 0)%nat.
Proof.
  rewrite count_occ_app. simpl. destruct (String.string_dec d k); reflexivity.
Qed.

Lemma tally_other (ds : list string) (d k : string) :
  k <> d -> tally (ds ++ [d]) k = tally ds k.
Proof.
  intros Hne. unfold tally, expected. rewrite count_occ_snoc.
  destruct (String.string_dec d k); [congruence |].
  rewrite Nat.add_0_r. reflexivity.
Qed.

Lemma tallied_assign (ds : list string) (o : DateCounts) (d : string) (c : Count) :
  tallied ds o -> tally (ds ++ [d]) d = Some c -> tallied (ds ++ [d]) (assign d c o).
Proof.
  intros [Hnd Hown] Hc. split; [apply NoDup_keys_assign, Hnd |].
  intros k. destruct (String.string_dec k d) as [-> | Hne].
  - rewrite own_assign_eq. symmetry. exact Hc.
  - rewrite (own_assign_ne k d c o Hne), Hown. symmetry. apply tally_other, Hne.
Qed.

Lemma tallied_bump (ds : list string) (o : DateCounts) (d : string) :
  tallied ds o -> tallied (ds ++ [d]) (bump o d).
Proof.
  intros Ht. pose proof Ht as [Hnd Hown].
  pose proof (Hown d) as Hd. unfold bump. rewrite Hd.
  unfold tally in Hd |- *. unfold expected in Hd |- *.
  destruct (inherited d) eqn:Hi.
  - destruct (String.eqb d "__proto__") eqn:Hp.
    + split; [exact Hnd |]. intros k. rewrite Hown.
      destruct (String.string_dec k d) as [-> | Hne].
      * unfold tally. rewrite Hi, Hp. reflexivity.
      * symmetry. apply tally_other, Hne.
    + destruct (count_occ String.string_dec ds d) as [|n] eqn:E;
        apply tallied_assign; try exact Ht;
        unfold tally; rewrite Hi, Hp, count_occ_snoc, E;
        destruct (String.string_dec d d); try congruence;
        rewrite Nat.add_1_r; reflexivity.
  - destruct (count_occ String.string_dec ds d) as [|n] eqn:E;
      apply tallied_assign; try exact Ht;
      unfold tally, expected; rewrite Hi, count_occ_snoc, E;
      destruct (String.string_dec d d); try congruence.
    + reflexivity.
    + unfold orZeroPlusOne. simpl. rewrite Nat.add_1_r. reflexivity.
Qed.

Lemma tallied_fold (ds' ds : list string) (o : DateCounts) :
  tallied ds o -> tallied (ds ++ ds') (fold_left bump ds' o).
Proof.
  revert ds o. induction ds' as [|d ds' IH]; intros ds o Ht; simpl.
  - rewrite app_nil_r. exact Ht.
  - replace (ds ++ d :: ds') with ((ds ++ [d]) ++ ds') by (rewrite <- app_assoc; reflexivity).
    apply IH, tallied_bump, Ht.
Qed.

Lemma countDates_tallied (votes : list UserVote) :
  tallied (allDates votes) (countDates votes).
Proof.
  unfold countDates. rewrite nested_loops.
  apply (tallied_fold (allDates votes) [] []).
  split; [constructor |]. intros k. unfold tally, expected. simpl.
  destruct (inherited k); [destruct (String.eqb k "__proto__") |]; reflexivity.
Qed.

Lemma own_Some_elem_of (k : string) (c : Count) (o : DateCounts) :
  own k o = Some c -> (k, c) ∈ o.
Proof.
  induction o as [|[k' c'] o IH]; simpl; intros H; [discriminate H |].
  destruct (String.eqb k k') eqn:E.
  - apply String.eqb_eq in E. subst k'. injection H as <-. apply elem_of_cons. auto.
  - apply elem_of_cons. right. apply IH, H.
Qed.

Lemma insertIndex_Permutation {A : Type} (e : string * A) (l : list (string * A)) :
  insertIndex e l ≡ₚ e :: l.
Proof.
  induction l as [|e' l IH]; simpl; [reflexivity |].
  destruct (indexOf e <=? indexOf e')%N; [reflexivity |].
  rewrite IH. apply perm_swap.
Qed.

Lemma sortIndices_Permutation {A : Type} (l : list (string * A)) :
  sortIndices l ≡ₚ l.
Proof.
  unfold sortIndices. induction l as [|e l IH]; simpl; [reflexivity |].
  rewrite insertIndex_Permutation, IH. reflexivity.
Qed.

Lemma filter_split_Permutation {A : Type} (f : A -> bool) (l : list A) :
  List.filter f l ++ List.filter (fun x => negb (f x)) l ≡ₚ l.
Proof.
  induction l as [|x l IH]; simpl; [reflexivity |].
  destruct (f x); simpl.
  - rewrite IH. reflexivity.
  - rewrite <- Permutation_middle, IH. reflexivity.
Qed.

Lemma entries_Permutation {A : Type} (o : list (string * A)) : entries o ≡ₚ o.
Proof.
  unfold entries. rewrite sortIndices_Permutation. apply filter_split_Permutation.
Qed.

Lemma insertSorted_Permutation (x : PopularDate) (l : list PopularDate) :
  insertSorted x l ≡ₚ x :: l.
Proof.
  induction l as [|y l IH]; simpl; [reflexivity |].
  destruct (SortCompare x y <=? 0); [reflexivity |].
  rewrite IH. apply perm_swap.
Qed.

Lemma stableSort_Permutation (l : list PopularDate) : stableSort l ≡ₚ l.
Proof.
  unfold stableSort. induction l as [|x l IH]; simpl; [reflexivity |].
  rewrite insertSorted_Permutation, IH. reflexivity.
Qed.

(** [sort] rearranges the array, if the runtime does. *)
Lemma sort_Permutation (implementationOrder : list PopularDate -> list PopularDate)
    (l : list PopularDate) :
  (forall l', implementationOrder l' ≡ₚ l') -> sort implementationOrder l ≡ₚ l.
Proof.
  intros H. unfold sort. destruct (forallb isNumber l).
  - apply stableSort_Permutation.
  - apply H.
Qed.

Lemma popularDatesOf_own (implementationOrder : list PopularDate -> list PopularDate)
    (votes : list UserVote) (p : PopularDate) :
  (forall l, implementationOrder l ≡ₚ l) ->
  p ∈ popularDatesOf implementationOrder votes -> (date p, count p) ∈ countDates votes.
Proof.
  intros Hperm H. unfold popularDatesOf in H. apply elem_of_take_list in H.
  rewrite (sort_Permutation implementationOrder _ Hperm) in H.
  apply list_elem_of_fmap in H as ([k c] & -> & H).
  apply (proj1 (entries_elem_of _ _)) in H. exact H.
Qed.

(** X17. Whatever the dates of the votes are, and in whatever order the
    runtime leaves an array that it sorts with string counts, as long as it
    only rearranges the array, the [popularDates] list of GET /poll has at
    most 5 entries and no date twice; every date in it is listed by some
    vote and is not [__proto__]; the count of a date that is not a name of
    [Object.prototype] is the number of times it is listed, also when other
    dates are such names; the count of a date that is such a name is a
    string, not a Number. *)
Theorem popularDates_any_dates
    (implementationOrder : list PopularDate -> list PopularDate)
    (votes : list UserVote) :
  (forall l, implementationOrder l ≡ₚ l) ->
  NoDup (map date (popularDatesOf implementationOrder votes)) /\
  (length (popularDatesOf implementationOrder votes) <= 5)%nat /\
  forall p, p ∈ popularDatesOf implementationOrder votes ->
    date p ∈ allDates votes /\
    date p <> "__proto__"%string /\
    (inherited (date p) = false -> count p = Num (occurrences (date p) votes)) /\
    (inherited (date p) = true -> count p = Text).
Proof.
  intros Hperm. destruct (countDates_tallied votes) as [Hnd Hown].
  split; [| split].
  - unfold popularDatesOf.
    eapply sublist_NoDup; [| apply fmap_sublist, sublist_take].
    change (map date) with (fmap (M := list) date).
    rewrite (sort_Permutation implementationOrder _ Hperm), <- list_fmap_compose.
    rewrite entries_Permutation. exact Hnd.
  - unfold popularDatesOf. rewrite length_take. lia.
  - intros p Hp. apply (popularDatesOf_own implementationOrder votes p Hperm) in Hp.
    pose proof (own_elem_of _ _ _ Hnd Hp) as H. rewrite Hown in H.
    unfold tally, expected in H. unfold occurrences.
    destruct (inherited (date p)) eqn:Hi.
    + destruct (String.eqb (date p) "__proto__") eqn:Hproto; [discriminate H |].
      destruct (count_occ String.string_dec (allDates votes) (date p)) eqn:E;
        [discriminate H |].
      injection H as <-. repeat split; try discriminate.
      * apply list_elem_of_In, (count_occ_In String.string_dec). lia.
      * apply String.eqb_neq, Hproto.
    + destruct (count_occ String.string_dec (allDates votes) (date p)) eqn:E;
        [discriminate H |].
      injection H as <-. repeat split; try discriminate.
      * apply list_elem_of_In, (count_occ_In String.string_dec). lia.
      * intros Hproto. rewrite Hproto in Hi. discriminate Hi.
Qed.

Lemma popularDates_any_dates_witness :
  NoDup (map date (popularDatesOf sampleOrder
                     [ {| vote_id := "1"; userName := VStr "Ann";
                          dates := ["2024-04-05"; "toString"]%string |} ])) /\
  (length (popularDatesOf sampleOrder
             [ {| vote_id := "1"; userName := VStr "Ann";
                  dates := ["2024-04-05"; "toString"]%string |} ]) <= 5)%nat /\
  forall p,
    p ∈ popularDatesOf sampleOrder
          [ {| vote_id := "1"; userName := VStr "Ann";
               dates := ["2024-04-05"; "toString"]%string |} ] ->
    date p ∈ allDates [ {| vote_id := "1"; userName := VStr "Ann";
                           dates := ["2024-04-05"; "toString"]%string |} ] /\
    date p <> "__proto__"%string /\
    (inherited (date p) = false ->
     count p = Num (occurrences (date p)
                      [ {| vote_id := "1"; userName := VStr "Ann";
                           dates := ["2024-04-05"; "toString"]%string |} ])) /\
    (inherited (date p) = true -> count p = Text).
Proof.
  apply (popularDates_any_dates sampleOrder
           [ {| vote_id := "1"; userName := VStr "Ann";
                dates := ["2024-04-05"; "toString"]%string |} ]).
  intros l. reflexivity.
Defined.

(** X18. With dates that are not names of [Object.prototype], the
    [popularDates] list holds the five most listed dates: a date that some
    vote lists is either in the list, with its count, or is left out of a
    list of 5 entries each of which has at least its count. *)
Theorem popularDates_top_five
    (implementationOrder : list PopularDate -> list PopularDate)
    (votes : list UserVote) (d : string) :
  plainDates votes -> (0 < occurrences d votes)%nat ->
  (exists p, p ∈ popularDatesOf implementationOrder votes /\ date p = d /\
             count p = Num (occurrences d votes)) \/
  (length (popularDatesOf implementationOrder votes) = 5%nat /\
   forall p, p ∈ popularDatesOf implementationOrder votes ->
     exists n, count p = Num n /\ (occurrences d votes <= n)%nat).
Proof.
  intros Hplain Hocc.
  destruct (countDates_counted votes Hplain) as [Hnd Hown].
  rewrite (popularDatesOf_plain implementationOrder votes Hplain).
  set (all := stableSort (map (fun e => {| date := e.1; count := e.2 |})
                            (entries (countDates votes)))).
  set (e := {| date := d; count := Num (occurrences d votes) |}).
  assert (Hsorted : StronglySorted descending all).
  { apply stableSort_sorted, entries_numeric, Hplain. }
  assert (He : e ∈ all).
  { apply stableSort_elem_of, list_elem_of_fmap.
    exists (d, Num (occurrences d votes)). split; [reflexivity |].
    apply entries_elem_of, own_Some_elem_of. rewrite Hown.
    unfold expected. unfold occurrences in *.
    destruct (count_occ String.string_dec (allDates votes) d); [lia | reflexivity]. }
  rewrite <- (take_drop 5 all) in He, Hsorted.
  apply elem_of_app in He as [He | He].
  - left. exists e. repeat split. exact He.
  - right. split.
    + apply length_take_le.
      apply list_elem_of_lookup in He as [i Hi].
      apply lookup_lt_Some in Hi. rewrite length_drop in Hi. lia.
    + intros p Hp.
      destruct (StronglySorted_app_1_elem_of _ _ _ p e Hsorted Hp He)
        as (na & nb & Ha & Hb & Hle).
      simpl in Hb. injection Hb as <-. exists na. auto.
Qed.

Lemma popularDates_top_five_witness :
  (exists p,
     p ∈ popularDatesOf sampleOrder
           [ {| vote_id := "1"; userName := VStr "Ann";
                dates := ["2024-04-05"; "2024-04-12"]%string |} ] /\
     date p = "2024-04-12"%string /\
     count p = Num (occurrences "2024-04-12"
                      [ {| vote_id := "1"; userName := VStr "Ann";
                           dates := ["2024-04-05"; "2024-04-12"]%string |} ])) \/
  (length (popularDatesOf sampleOrder
             [ {| vote_id := "1"; userName := VStr "Ann";
                  dates := ["2024-04-05"; "2024-04-12"]%string |} ]) = 5%nat /\
   forall p,
     p ∈ popularDatesOf sampleOrder
           [ {| vote_id := "1"; userName := VStr "Ann";
                dates := ["2024-04-05"; "2024-04-12"]%string |} ] ->
     exists n, count p = Num n /\
       (occurrences "2024-04-12"
          [ {| vote_id := "1"; userName := VStr "Ann";
               dates := ["2024-04-05"; "2024-04-12"]%string |} ] <= n)%nat).
Proof.
  apply (popularDates_top_five sampleOrder
           [ {| vote_id := "1"; userName := VStr "Ann";
                dates := ["2024-04-05"; "2024-04-12"]%string |} ] "2024-04-12").
  - repeat constructor.
  - unfold occurrences. simpl. lia.
Defined.
